(** * stock-ai: indicator library and rule-based prediction

    A shallow embedding of [backend/indicators.py] ([calc_sma],
    [calc_momentum], [calc_rsi]) and of the prediction heuristic of
    [backend/main.py] ([predict_dummy], [get_stock_full_summary]).

    Numbers.  Prices are Python floats.  They are modelled as exact
    rationals [Q]: every arithmetic operation is the exact one, and
    rounding, infinities and NaN are outside the model.  Two rationals
    that denote the same number are related by [==] ([Qeq]), so results
    are compared with [==] unless the code returns a literal.

    Exceptions.  A Python function either returns or raises; this is the
    type [result].  [None] is an ordinary return value, [Ok None].

    Storage.  The two endpoints read the database through
    [crud.get_stock] and [crud.list_prices_by_stock]; the values those two
    calls return are arguments of the embedded endpoints. *)

From Stdlib Require Import ZArith QArith Qminmax List Bool Lia Lqa String Sorted.
From Stdlib Require Import Permutation.
Import ListNotations.
Open Scope Q_scope.

(** ** Python values and control *)

Module Py.

Inductive exn : Type :=
| ZeroDivisionError
| IndexError
| HTTPException (status_code : Z).

Inductive result (A : Type) : Type :=
| Ok (a : A)
| Raise (e : exn).
Arguments Ok {A} a.
Arguments Raise {A} e.

Definition bind {A B : Type} (m : result A) (k : A -> result B) : result B :=
  match m with
  | Ok a => k a
  | Raise e => Raise e
  end.

(** [len(l)] *)
Definition len {A : Type} (l : list A) : Z := Z.of_nat (List.length l).

(** [l[i]]: a negative index counts from the end, an index out of range
    raises [IndexError]. *)
Definition index {A : Type} (l : list A) (i : Z) : result A :=
  let j := (if i <? 0 then i + len l else i)%Z in
  if ((j <? 0) || (len l <=? j))%Z then Raise IndexError
  else match nth_error l (Z.to_nat j) with
       | Some x => Ok x
       | None => Raise IndexError
       end.

(** A slice bound: a negative bound counts from the end, and the
    outcome is clipped to [0 .. len(l)]. *)
Definition bound {A : Type} (l : list A) (i : Z) : nat :=
  let j := (if i <? 0 then i + len l else i)%Z in
  Z.to_nat (Z.max 0 (Z.min (len l) j)).

(** [l[start:]] and [l[:stop]] *)
Definition slice_from {A : Type} (l : list A) (start : Z) : list A :=
  skipn (bound l start) l.
Definition slice_to {A : Type} (l : list A) (stop : Z) : list A :=
  firstn (bound l stop) l.

(** [a < b] on numbers *)
Definition ltb (a b : Q) : bool := negb (Qle_bool b a).

(** [max(a, b)] keeps [a] unless [b] is larger; [min(a, b)] keeps [a]
    unless [b] is smaller. *)
Definition max (a b : Q) : Q := if ltb a b then b else a.
Definition min (a b : Q) : Q := if ltb b a then b else a.

(** [sum(l)]: starts from [0] and adds from the left. *)
Definition sum (l : list Q) : Q := fold_left Qplus l 0.

(** [a / b]: true division, raising on a zero divisor. *)
Definition div (a b : Q) : result Q :=
  if Qeq_bool b 0 then Raise ZeroDivisionError else Ok (a / b).

End Py.

Import Py.

Notation "x <- m ;; k" := (Py.bind m (fun x => k))
  (at level 61, m at next level, right associativity).

(** ** backend/indicators.py *)

(** [calc_sma(values, window)] *)
Definition calc_sma (values : list Q) (window : Z) : result (option Q) :=
  if (len values <? window)%Z then Ok None
  else
    let slice_values := slice_from values (- window) in
    r <- div (sum slice_values) (inject_Z window) ;;
    Ok (Some r).

(** [calc_momentum(closes, period)] *)
Definition calc_momentum (closes : list Q) (period : Z) : result (option Q) :=
  if (len closes <? period + 1)%Z then Ok None
  else
    base_price <- index closes (- period - 1) ;;
    last_price <- index closes (-1) ;;
    if Qeq_bool base_price 0 then Ok None
    else
      r <- div (last_price - base_price) base_price ;;
      Ok (Some r).

(** The first loop of [calc_rsi]:
    [for i in range(1, len(closes)): changes.append(closes[i] - closes[i-1])].
    Both indexes are in range for every [i] of the loop. *)
Definition changes_of (closes : list Q) : list Q :=
  map (fun i => nth i closes 0 - nth (i - 1) closes 0)
      (seq 1 (List.length closes - 1)).

(** The second loop: one entry is appended to [gains] and to [losses]
    for every change of the seed window. *)
Fixpoint seed_loop (chs gains losses : list Q) : list Q * list Q :=
  match chs with
  | [] => (gains, losses)
  | ch :: rest =>
      if ltb 0 ch
      then seed_loop rest (gains ++ [ch]) (losses ++ [0.0])
      else seed_loop rest (gains ++ [0.0]) (losses ++ [- ch])
  end.

(** The third loop: Wilder's update, once for every later change. *)
Fixpoint smooth_loop (period : Z) (chs : list Q) (avg_gain avg_loss : Q)
  : result (Q * Q) :=
  match chs with
  | [] => Ok (avg_gain, avg_loss)
  | ch :: rest =>
      let gain := if ltb 0 ch then ch else 0.0 in
      let loss := if ltb ch 0 then - ch else 0.0 in
      avg_gain' <- div (avg_gain * inject_Z (period - 1) + gain) (inject_Z period) ;;
      avg_loss' <- div (avg_loss * inject_Z (period - 1) + loss) (inject_Z period) ;;
      smooth_loop period rest avg_gain' avg_loss'
  end.

(** [calc_rsi(closes, period)] *)
Definition calc_rsi (closes : list Q) (period : Z) : result (option Q) :=
  if (len closes <? period + 1)%Z then Ok None
  else
    let changes := changes_of closes in
    let '(gains, losses) := seed_loop (slice_to changes period) [] [] in
    avg_gain <- div (sum gains) (inject_Z period) ;;
    avg_loss <- div (sum losses) (inject_Z period) ;;
    avgs <- smooth_loop period (slice_from changes period) avg_gain avg_loss ;;
    let '(avg_gain, avg_loss) := avgs in
    if Qeq_bool avg_loss 0 then Ok (Some 100.0)
    else
      rs <- div avg_gain avg_loss ;;
      q <- div 100.0 (1.0 + rs) ;;
      Ok (Some (100.0 - q)).

(** ** backend/models.py and backend/schemas.py *)

(** A calendar date is its day number. *)
Definition date : Type := Z.

Module Stock.
Record t : Type := mk
  { id : Z;
    symbol : string;
    name : string;
    market : string;
    sector : option string;
    currency : string }.
End Stock.

Module Price.
Record t : Type := mk
  { id : Z;
    stock_id : Z;
    date : date;
    open : Q;
    high : Q;
    low : Q;
    close : Q;
    volume : option Q }.
End Price.

Module PredictionSummary.
Record t : Type := mk
  { stock_id : Z;
    horizon_days : Z;
    latest_date : option date;
    latest_close : option Q;
    prob_up : Q;
    expected_return : Q;
    model_version : string }.
End PredictionSummary.

Module StockFullSummary.
Record t : Type := mk
  { stock_id : Z;
    symbol : string;
    name : string;
    market : string;
    sector : option string;
    currency : string;
    latest_date : option date;
    latest_close : option Q;
    ma_5 : option Q;
    ma_20 : option Q;
    rsi_14 : option Q;
    momentum_3d : option Q;
    horizon_days : Z;
    prob_up : Q;
    expected_return : Q;
    model_version : string }.
End StockFullSummary.

(** ** backend/main.py *)

(** [sorted(prices, key=lambda p: p.date)].  Python's sort is stable, and
    the stable ordering of a list by a key is unique; insertion from the
    right in front of the first entry that is not older produces it. *)
Fixpoint insert_by_date (p : Price.t) (l : list Price.t) : list Price.t :=
  match l with
  | [] => [p]
  | q :: l' =>
      if (Price.date p <=? Price.date q)%Z then p :: l
      else q :: insert_by_date p l'
  end.

Definition sorted_by_date (prices : list Price.t) : list Price.t :=
  fold_right insert_by_date [] prices.

(** [predict_dummy]: [stock] is what [crud.get_stock] returned and
    [prices] what [crud.list_prices_by_stock] returned. *)
Definition predict_dummy (stock : option Stock.t) (prices : list Price.t)
    (stock_id horizon_days : Z) : result PredictionSummary.t :=
  match stock with
  | None => Raise (HTTPException 404)
  | Some _ =>
    if (horizon_days <? 1)%Z then Raise (HTTPException 400)
    else if (len prices <? horizon_days + 1)%Z then Raise (HTTPException 400)
    else
      let prices_sorted := sorted_by_date prices in
      let closes := map Price.close prices_sorted in
      latest <- index prices_sorted (-1) ;;
      let latest_date := Price.date latest in
      let latest_close := Price.close latest in
      base <- index prices_sorted (- (horizon_days + 1)) ;;
      let base_price := Price.close base in
      recent_return <-
        (if Qle_bool base_price 0 then Ok 0.0
         else div (latest_close - base_price) base_price) ;;
      rsi_14 <- calc_rsi closes 14 ;;
      mom_3d <- calc_momentum closes 3 ;;
      let prob_up := 0.5 in
      let prob_up := prob_up + max (-0.15) (min 0.15 (recent_return * 2)) in
      let prob_up :=
        match rsi_14 with
        | Some rsi_14 =>
            if ltb rsi_14 35 then prob_up + 0.05
            else if ltb 70 rsi_14 then prob_up - 0.05
            else prob_up
        | None => prob_up
        end in
      let prob_up :=
        match mom_3d with
        | Some mom_3d =>
            if ltb 0 mom_3d then prob_up + 0.03
            else if ltb mom_3d 0 then prob_up - 0.03
            else prob_up
        | None => prob_up
        end in
      let prob_up := max 0.05 (min 0.95 prob_up) in
      let expected_return_pct := recent_return * 100.0 in
      Ok {| PredictionSummary.stock_id := stock_id;
            PredictionSummary.horizon_days := horizon_days;
            PredictionSummary.latest_date := Some latest_date;
            PredictionSummary.latest_close := Some latest_close;
            PredictionSummary.prob_up := prob_up;
            PredictionSummary.expected_return := expected_return_pct;
            PredictionSummary.model_version := "dummy_v1" |}
  end.

(** [get_stock_full_summary], with the same two database reads as
    arguments.  It has no check of [horizon_days] of its own. *)
Definition get_stock_full_summary (stock : option Stock.t) (prices : list Price.t)
    (stock_id horizon_days : Z) : result StockFullSummary.t :=
  match stock with
  | None => Raise (HTTPException 404)
  | Some stock =>
    if (len prices <? horizon_days + 1)%Z then Raise (HTTPException 400)
    else
      let prices_sorted := sorted_by_date prices in
      let closes := map Price.close prices_sorted in
      latest <- index prices_sorted (-1) ;;
      let latest_date := Price.date latest in
      let latest_close := Price.close latest in
      ma_5 <- calc_sma closes 5 ;;
      ma_20 <- calc_sma closes 20 ;;
      rsi_14 <- calc_rsi closes 14 ;;
      momentum_3d <- calc_momentum closes 3 ;;
      base <- index prices_sorted (- (horizon_days + 1)) ;;
      let base_price := Price.close base in
      recent_return <-
        (if Qle_bool base_price 0 then Ok 0.0
         else div (latest_close - base_price) base_price) ;;
      let prob_up := 0.5 in
      let prob_up := prob_up + max (-0.15) (min 0.15 (recent_return * 2)) in
      let prob_up :=
        match rsi_14 with
        | Some rsi_14 =>
            if ltb rsi_14 35 then prob_up + 0.05
            else if ltb 70 rsi_14 then prob_up - 0.05
            else prob_up
        | None => prob_up
        end in
      let prob_up :=
        match momentum_3d with
        | Some momentum_3d =>
            if ltb 0 momentum_3d then prob_up + 0.03
            else if ltb momentum_3d 0 then prob_up - 0.03
            else prob_up
        | None => prob_up
        end in
      let prob_up := max 0.05 (min 0.95 prob_up) in
      let expected_return_pct := recent_return * 100.0 in
      Ok {| StockFullSummary.stock_id := Stock.id stock;
            StockFullSummary.symbol := Stock.symbol stock;
            StockFullSummary.name := Stock.name stock;
            StockFullSummary.market := Stock.market stock;
            StockFullSummary.sector := Stock.sector stock;
            StockFullSummary.currency := Stock.currency stock;
            StockFullSummary.latest_date := Some latest_date;
            StockFullSummary.latest_close := Some latest_close;
            StockFullSummary.ma_5 := ma_5;
            StockFullSummary.ma_20 := ma_20;
            StockFullSummary.rsi_14 := rsi_14;
            StockFullSummary.momentum_3d := momentum_3d;
            StockFullSummary.horizon_days := horizon_days;
            StockFullSummary.prob_up := prob_up;
            StockFullSummary.expected_return := expected_return_pct;
            StockFullSummary.model_version := "dummy_v1" |}
  end.

(** Test data: a bar of day [d] closing at [c]. *)
Definition bar (d : Z) (c : Q) : Price.t :=
  Price.mk d 1 d c c c c None.

Definition bars (closes : list Q) : list Price.t :=
  map (fun ic => bar (Z.of_nat (fst ic)) (snd ic))
      (combine (seq 0 (List.length closes)) closes).

Definition a_stock : Stock.t := Stock.mk 1 "005930.KS" "Samsung" "KOSPI" None "KRW".

Definition spec_closes : list Q :=
  [100; 102; 101; 103; 105; 107; 106; 108; 110; 111; 113; 112; 114; 116; 118].

(** A series that falls by one every day, one that rises by one every day
    through zero, and one that rises from a positive price. *)
Definition falling_closes : list Q :=
  [15; 14; 13; 12; 11; 10; 9; 8; 7; 6; 5; 4; 3; 2; 1].

Definition rising_through_zero : list Q :=
  [-11; -10; -9; -8; -7; -6; -5; -4; -3; -2; -1; 0; 1; 2; 3].

Definition rising_closes : list Q :=
  [1; 2; 3; 4; 5; 6; 7; 8; 9; 10; 11; 12; 13; 14; 15].

(** Two closes with a thousandfold jump, and a flat series. *)
Definition jump_closes : list Q := [1; 1000].

Definition flat_closes : list Q := [7; 7; 7; 7].

(** ** The specification's wording

    Definitions that follow the sentences of the specification, to be
    compared with the code above. *)

Module Spec.

(** "the last [w] elements" and "the arithmetic mean" *)
Definition last_n (w : nat) (l : list Q) : list Q :=
  skipn (List.length l - w) l.

Definition mean (l : list Q) : Q :=
  fold_right Qplus 0 l / inject_Z (Z.of_nat (List.length l)).

(** "successive differences [diff[i] = closes[i] - closes[i-1]]" *)
Fixpoint diffs (closes : list Q) : list Q :=
  match closes with
  | prev :: (cur :: _) as rest => (cur - prev) :: diffs rest
  | _ => []
  end.

(** Seed phase: a positive difference counts as a gain, a negative one,
    negated, as a loss, and anything else as zero. *)
Definition seed_gain (d : Q) : Q :=
  match d ?= 0 with Gt => d | _ => 0 end.
Definition seed_loss (d : Q) : Q :=
  match d ?= 0 with Lt => - d | _ => 0 end.

(** Smoothing phase: [avg = (avg*(period-1) + x) / period] with
    [x = max(d,0)] for gains and [x = max(-d,0)] for losses. *)
Definition smooth (period : Z) (avg x : Q) : Q :=
  (avg * (inject_Z period - 1) + x) / inject_Z period.

Definition avg_gain (closes : list Q) (period : Z) : Q :=
  let d := diffs closes in
  fold_left (fun avg x => smooth period avg (Qmax x 0))
    (skipn (Z.to_nat period) d)
    (mean (map seed_gain (firstn (Z.to_nat period) d))).

Definition avg_loss (closes : list Q) (period : Z) : Q :=
  let d := diffs closes in
  fold_left (fun avg x => smooth period avg (Qmax (- x) 0))
    (skipn (Z.to_nat period) d)
    (mean (map seed_loss (firstn (Z.to_nat period) d))).

(** The prediction rule *)
Definition clamp (x lo hi : Q) : Q := Qmax lo (Qmin hi x).

Definition recent_return (base latest_close : Q) : Q :=
  if Qle_bool base 0 then 0.0 else (latest_close - base) / base.

Definition rsi_adjustment (rsi : option Q) : Q :=
  match rsi with
  | Some r =>
      match r ?= 35, r ?= 70 with
      | Lt, _ => 0.05
      | _, Gt => - 0.05
      | _, _ => 0
      end
  | None => 0
  end.

Definition momentum_adjustment (momentum : option Q) : Q :=
  match momentum with
  | Some m =>
      match m ?= 0 with
      | Gt => 0.03
      | Lt => - 0.03
      | Eq => 0
      end
  | None => 0
  end.

Definition prob_up (recent_return : Q) (rsi momentum : option Q) : Q :=
  clamp (0.5 + clamp (recent_return * 2) (-0.15) 0.15
         + rsi_adjustment rsi + momentum_adjustment momentum)
        0.05 0.95.

End Spec.

(** A series sorted oldest-first. *)
Definition oldest_first (prices : list Price.t) : Prop :=
  Sorted (fun p q => (Price.date p <= Price.date q)%Z) prices.

(** A strictly increasing series: every close is above the one before. *)
Fixpoint increasing (closes : list Q) : bool :=
  match closes with
  | prev :: (cur :: _) as rest => ltb prev cur && increasing rest
  | _ => true
  end.

(** A flat series: every close is the number [c]. *)
Definition flat (c : Q) (closes : list Q) : Prop :=
  Forall (fun x => x == c) closes.

(** ** The loops of [calc_rsi] in closed form

    What the second loop appends for one change, what the third loop
    adds for one change, and the value the loops leave in [avg_gain] and
    [avg_loss]. *)

Definition seed_gain_of (ch : Q) : Q := if ltb 0 ch then ch else 0.0.
Definition seed_loss_of (ch : Q) : Q := if ltb 0 ch then 0.0 else - ch.

Definition gain_of (ch : Q) : Q := if ltb 0 ch then ch else 0.0.
Definition loss_of (ch : Q) : Q := if ltb ch 0 then - ch else 0.0.

Definition wilder (period : Z) (part : Q -> Q) (chs : list Q) (avg : Q) : Q :=
  fold_left
    (fun avg ch => (avg * inject_Z (period - 1) + part ch) / inject_Z period)
    chs avg.

Definition final_avg_gain (closes : list Q) (period : Z) : Q :=
  let changes := changes_of closes in
  wilder period gain_of (skipn (Z.to_nat period) changes)
    (sum (map seed_gain_of (firstn (Z.to_nat period) changes)) / inject_Z period).

Definition final_avg_loss (closes : list Q) (period : Z) : Q :=
  let changes := changes_of closes in
  wilder period loss_of (skipn (Z.to_nat period) changes)
    (sum (map seed_loss_of (firstn (Z.to_nat period) changes)) / inject_Z period).

(** The last lines of [calc_rsi]. *)
Definition rsi_of (avg_gain avg_loss : Q) : Q :=
  if Qeq_bool avg_loss 0 then 100.0
  else 100.0 - 100.0 / (1.0 + avg_gain / avg_loss).

(** ** The prediction rule in closed form

    Steps (1) to (4) of the rule as both endpoints write them, as a
    function of the recent return and of the two indicators. *)

Definition raw_prob_up (recent_return : Q) (rsi_14 mom_3d : option Q) : Q :=
  let prob_up := 0.5 in
  let prob_up := prob_up + max (-0.15) (min 0.15 (recent_return * 2)) in
  let prob_up :=
    match rsi_14 with
    | Some rsi_14 =>
        if ltb rsi_14 35 then prob_up + 0.05
        else if ltb 70 rsi_14 then prob_up - 0.05
        else prob_up
    | None => prob_up
    end in
  match mom_3d with
  | Some mom_3d =>
      if ltb 0 mom_3d then prob_up + 0.03
      else if ltb mom_3d 0 then prob_up - 0.03
      else prob_up
  | None => prob_up
  end.

Definition prob_up_of (recent_return : Q) (rsi_14 mom_3d : option Q) : Q :=
  max 0.05 (min 0.95 (raw_prob_up recent_return rsi_14 mom_3d)).

(** What a caller observes of a prediction: the pair
    [(prob_up, expected_return)], or the exception raised. *)
Definition observed {A : Type} (view : A -> Q * Q) (r : result A) : result (Q * Q) :=
  match r with
  | Ok a => Ok (view a)
  | Raise e => Raise e
  end.

Definition prediction_view (r : PredictionSummary.t) : Q * Q :=
  (PredictionSummary.prob_up r, PredictionSummary.expected_return r).

Definition summary_view (s : StockFullSummary.t) : Q * Q :=
  (StockFullSummary.prob_up s, StockFullSummary.expected_return s).

(** ** backend/main.py: the indicator endpoint *)

Module IndicatorSummary.
Record t : Type := mk
  { stock_id : Z;
    days : Z;
    latest_date : option date;
    latest_close : option Q;
    ma_5 : option Q;
    ma_20 : option Q;
    rsi_14 : option Q;
    momentum_3d : option Q }.
End IndicatorSummary.

(** [get_indicators], with the two database reads as arguments like the
    other two endpoints. *)
Definition get_indicators (stock : option Stock.t) (prices : list Price.t)
    (stock_id : Z) : result IndicatorSummary.t :=
  match stock with
  | None => Raise (HTTPException 404)
  | Some _ =>
    match prices with
    | [] => Raise (HTTPException 404)
    | _ :: _ =>
      let prices_sorted := sorted_by_date prices in
      let closes := map Price.close prices_sorted in
      latest <- index prices_sorted (-1) ;;
      let latest_date := Price.date latest in
      let latest_close := Price.close latest in
      ma_5 <- calc_sma closes 5 ;;
      ma_20 <- calc_sma closes 20 ;;
      rsi_14 <- calc_rsi closes 14 ;;
      momentum_3d <- calc_momentum closes 3 ;;
      Ok {| IndicatorSummary.stock_id := stock_id;
            IndicatorSummary.days := len closes;
            IndicatorSummary.latest_date := Some latest_date;
            IndicatorSummary.latest_close := Some latest_close;
            IndicatorSummary.ma_5 := ma_5;
            IndicatorSummary.ma_20 := ma_20;
            IndicatorSummary.rsi_14 := rsi_14;
            IndicatorSummary.momentum_3d := momentum_3d |}
    end
  end.

(** Dates of a series, and a series whose dates are pairwise distinct. *)
Definition dates (prices : list Price.t) : list date := map Price.date prices.

Definition distinct_dates (prices : list Price.t) : Prop := NoDup (dates prices).

(** A strictly decreasing series. *)
Fixpoint decreasing (closes : list Q) : bool :=
  match closes with
  | prev :: (cur :: _) as rest => ltb cur prev && decreasing rest
  | _ => true
  end.

(** Two indicator outcomes that read the same: the same number (up to
    [==]), both unavailable, or the same exception. *)
Definition same_reading (a b : result (option Q)) : Prop :=
  match a, b with
  | Ok (Some x), Ok (Some y) => x == y
  | Ok None, Ok None => True
  | Raise e, Raise e' => e = e'
  | _, _ => False
  end.


(** ** backend/schemas.py: request bodies *)

Module StockCreate.
Record t : Type := mk
  { symbol : string;
    name : string;
    market : string;
    sector : option string;
    currency : string }.
End StockCreate.

Module PriceCreate.
Record t : Type := mk
  { stock_id : Z;
    date : date;
    open : Q;
    high : Q;
    low : Q;
    close : Q;
    volume : option Q }.
End PriceCreate.

(** ** The store

    The two tables of [backend/models.py], each as the list of its rows.
    A query is a function of the rows; a function that commits returns
    the store it leaves. *)

Module Db.
Record t : Type := mk
  { stocks : list Stock.t;
    prices : list Price.t }.
End Db.

(** ** backend/crud.py

    [database.py] fixes the engine to SQLite.  The primary key of a new
    row is chosen by the engine; it is the argument [new_id] of the two
    functions that insert.  [crud.delete_stock] is not embedded: what it
    does to the prices of the deleted stock is decided by the ORM's
    relationship handling, not by the code of this repository. *)

Module crud.

(** A crud function returns or raises [ValueError]. *)
Inductive outcome (A : Type) : Type :=
| Return (a : A)
| ValueError (msg : string).
Arguments Return {A} a.
Arguments ValueError {A} msg.

(** [.first()] *)
Definition first {A : Type} (rows : list A) : option A :=
  match rows with
  | [] => None
  | row :: _ => Some row
  end.

(** [.offset(skip)] and [.limit(limit)]: SQLite reads a negative offset
    as 0 and a negative limit as no limit. *)
Definition offset {A : Type} (skip : Z) (rows : list A) : list A :=
  skipn (Z.to_nat skip) rows.

Definition limit {A : Type} (limit : Z) (rows : list A) : list A :=
  if (limit <? 0)%Z then rows else firstn (Z.to_nat limit) rows.

(** [.order_by(models.Price.date.desc())]: newest first.  Rows of the
    same date stay in table order here; the engine leaves their order
    open. *)
Fixpoint insert_desc (p : Price.t) (l : list Price.t) : list Price.t :=
  match l with
  | [] => [p]
  | q :: l' =>
      if (Price.date q <=? Price.date p)%Z then p :: l
      else q :: insert_desc p l'
  end.

Definition order_by_date_desc (rows : list Price.t) : list Price.t :=
  fold_right insert_desc [] rows.

Definition create_stock (db : Db.t) (new_id : Z) (stock_in : StockCreate.t)
  : outcome Stock.t * Db.t :=
  let exist :=
    first (filter (fun s => String.eqb (Stock.symbol s) (StockCreate.symbol stock_in))
                  (Db.stocks db)) in
  match exist with
  | Some _ => (ValueError "Symbol already exists", db)
  | None =>
      let db_stock :=
        {| Stock.id := new_id;
           Stock.symbol := StockCreate.symbol stock_in;
           Stock.name := StockCreate.name stock_in;
           Stock.market := StockCreate.market stock_in;
           Stock.sector := StockCreate.sector stock_in;
           Stock.currency := StockCreate.currency stock_in |} in
      (Return db_stock,
       {| Db.stocks := Db.stocks db ++ [db_stock]; Db.prices := Db.prices db |})
  end.

Definition get_stock (db : Db.t) (stock_id : Z) : option Stock.t :=
  first (filter (fun s => (Stock.id s =? stock_id)%Z) (Db.stocks db)).

Definition list_stocks (db : Db.t) (skip lim : Z) : list Stock.t :=
  limit lim (offset skip (Db.stocks db)).

Definition update_stock (db : Db.t) (stock_id : Z) (stock_in : StockCreate.t)
  : outcome (option Stock.t) * Db.t :=
  match first (filter (fun s => (Stock.id s =? stock_id)%Z) (Db.stocks db)) with
  | None => (Return None, db)
  | Some stock =>
      let stock' :=
        {| Stock.id := Stock.id stock;
           Stock.symbol := StockCreate.symbol stock_in;
           Stock.name := StockCreate.name stock_in;
           Stock.market := StockCreate.market stock_in;
           Stock.sector := StockCreate.sector stock_in;
           Stock.currency := StockCreate.currency stock_in |} in
      let updated :=
        (Return (Some stock'),
         {| Db.stocks :=
              map (fun s => if (Stock.id s =? Stock.id stock)%Z then stock' else s)
                  (Db.stocks db);
            Db.prices := Db.prices db |}) in
      if negb (String.eqb (Stock.symbol stock) (StockCreate.symbol stock_in))
      then
        match first (filter (fun s => String.eqb (Stock.symbol s)
                                        (StockCreate.symbol stock_in))
                            (Db.stocks db)) with
        | Some _ => (ValueError "Symbol already exists", db)
        | None => updated
        end
      else updated
  end.

Definition create_price (db : Db.t) (new_id : Z) (price_in : PriceCreate.t)
  : outcome Price.t * Db.t :=
  match first (filter (fun s => (Stock.id s =? PriceCreate.stock_id price_in)%Z)
                      (Db.stocks db)) with
  | None => (ValueError "존재하지 않는 stock_id 입니다.", db)
  | Some _ =>
      match first (filter (fun p =>
                             (Price.stock_id p =? PriceCreate.stock_id price_in)%Z
                             && (Price.date p =? PriceCreate.date price_in)%Z)
                          (Db.prices db)) with
      | Some _ => (ValueError "이미 해당 날짜의 가격 데이터가 존재합니다.", db)
      | None =>
          let db_price :=
            {| Price.id := new_id;
               Price.stock_id := PriceCreate.stock_id price_in;
               Price.date := PriceCreate.date price_in;
               Price.open := PriceCreate.open price_in;
               Price.high := PriceCreate.high price_in;
               Price.low := PriceCreate.low price_in;
               Price.close := PriceCreate.close price_in;
               Price.volume := PriceCreate.volume price_in |} in
          (Return db_price,
           {| Db.stocks := Db.stocks db; Db.prices := Db.prices db ++ [db_price] |})
      end
  end.

Definition list_prices_by_stock (db : Db.t) (stock_id skip lim : Z)
  : list Price.t :=
  limit lim
    (offset skip
       (order_by_date_desc
          (filter (fun p => (Price.stock_id p =? stock_id)%Z) (Db.prices db)))).

Definition get_price (db : Db.t) (price_id : Z) : option Price.t :=
  first (filter (fun p => (Price.id p =? price_id)%Z) (Db.prices db)).

End crud.

(** ** backend/main.py: the endpoints over the store *)

(** What a request ends in: the endpoint's own outcome, or a [ValueError]
    that no handler of the endpoint catches. *)
Inductive response (A : Type) : Type :=
| Handled (r : result A)
| Unhandled (msg : string).
Arguments Handled {A} r.
Arguments Unhandled {A} msg.

Definition create_stock (db : Db.t) (new_id : Z) (stock_in : StockCreate.t)
  : result Stock.t * Db.t :=
  match crud.create_stock db new_id stock_in with
  | (crud.Return stock, db') => (Ok stock, db')
  | (crud.ValueError e, db') => (Raise (HTTPException 400), db')
  end.

Definition list_stocks (db : Db.t) (skip limit : Z) : list Stock.t :=
  crud.list_stocks db skip limit.

Definition get_stock (db : Db.t) (stock_id : Z) : result Stock.t :=
  match crud.get_stock db stock_id with
  | None => Raise (HTTPException 404)
  | Some stock => Ok stock
  end.

Definition update_stock (db : Db.t) (stock_id : Z) (stock_in : StockCreate.t)
  : response Stock.t * Db.t :=
  match crud.update_stock db stock_id stock_in with
  | (crud.ValueError e, db') => (Unhandled e, db')
  | (crud.Return None, db') => (Handled (Raise (HTTPException 404)), db')
  | (crud.Return (Some stock), db') => (Handled (Ok stock), db')
  end.

Definition create_price (db : Db.t) (new_id : Z) (price_in : PriceCreate.t)
  : result Price.t * Db.t :=
  match crud.create_price db new_id price_in with
  | (crud.Return price, db') => (Ok price, db')
  | (crud.ValueError e, db') => (Raise (HTTPException 400), db')
  end.

Definition list_prices_for_stock (db : Db.t) (stock_id skip limit : Z)
  : list Price.t :=
  crud.list_prices_by_stock db stock_id skip limit.

Definition get_price (db : Db.t) (price_id : Z) : result Price.t :=
  match crud.get_price db price_id with
  | None => Raise (HTTPException 404)
  | Some price => Ok price
  end.

(** The three computing endpoints with their database reads. *)
Definition get_indicators_from (db : Db.t) (stock_id days : Z)
  : result IndicatorSummary.t :=
  get_indicators (crud.get_stock db stock_id)
                 (crud.list_prices_by_stock db stock_id 0 days) stock_id.

Definition predict_dummy_from (db : Db.t) (stock_id horizon_days window_days : Z)
  : result PredictionSummary.t :=
  predict_dummy (crud.get_stock db stock_id)
                (crud.list_prices_by_stock db stock_id 0 window_days)
                stock_id horizon_days.

Definition get_stock_full_summary_from (db : Db.t)
    (stock_id horizon_days window_days : Z) : result StockFullSummary.t :=
  get_stock_full_summary (crud.get_stock db stock_id)
                         (crud.list_prices_by_stock db stock_id 0 window_days)
                         stock_id horizon_days.

(** Invariants of the store: primary keys and symbols are unique, and a
    stock has at most one price per date. *)
Definition stocks_unique (db : Db.t) : Prop :=
  NoDup (map Stock.id (Db.stocks db)) /\ NoDup (map Stock.symbol (Db.stocks db)).

Definition one_price_per_date (db : Db.t) : Prop :=
  NoDup (map (fun p => (Price.stock_id p, Price.date p)) (Db.prices db)).

(** A small store. *)
Definition samsung : StockCreate.t :=
  StockCreate.mk "005930.KS" "Samsung" "KOSPI" None "KRW".

Definition hynix : StockCreate.t :=
  StockCreate.mk "000660.KS" "SK hynix" "KOSPI" None "KRW".

Definition bar_of (stock_id : Z) (d : Z) (c : Q) : PriceCreate.t :=
  PriceCreate.mk stock_id d c c c c None.

Definition empty_db : Db.t := Db.mk [] [].

Definition two_stocks : Db.t :=
  snd (crud.create_stock (snd (crud.create_stock empty_db 1 samsung)) 2 hynix).

Definition three_prices : Db.t :=
  snd (crud.create_price
         (snd (crud.create_price
                 (snd (crud.create_price two_stocks 1 (bar_of 1 10 100)))
                 2 (bar_of 1 12 104)))
         3 (bar_of 1 11 102)).

(** Rows that come newest first. *)
Definition newest_first (prices : list Price.t) : Prop :=
  StronglySorted (fun p q => (Price.date q <= Price.date p)%Z) prices.

(** ** Python helpers *)

Lemma ltb_true (a b : Q) : ltb a b = true <-> a < b.
Proof.
  unfold ltb. rewrite negb_true_iff.
  split; intro H.
  - apply Qnot_le_lt. intro Hle.
    apply Qle_bool_iff in Hle. congruence.
  - destruct (Qle_bool b a) eqn:E; [|reflexivity].
    apply Qle_bool_iff in E. exfalso. apply (Qlt_not_le _ _ H E).
Qed.

Lemma ltb_false (a b : Q) : ltb a b = false <-> b <= a.
Proof.
  unfold ltb. rewrite negb_false_iff. apply Qle_bool_iff.
Qed.

Lemma div_ok (a b : Q) : ~ b == 0 -> div a b = Ok (a / b).
Proof.
  intro H. unfold div.
  destruct (Qeq_bool b 0) eqn:E; [|reflexivity].
  apply Qeq_bool_eq in E. contradiction.
Qed.

Lemma div_zero (a b : Q) : b == 0 -> div a b = Raise ZeroDivisionError.
Proof.
  intro H. unfold div. now rewrite (Qeq_eq_bool _ _ H).
Qed.

Lemma inject_Z_nonzero (z : Z) : z <> 0%Z -> ~ inject_Z z == 0.
Proof.
  intros H E. apply H.
  unfold Qeq in E. simpl in E. lia.
Qed.

Lemma len_nonneg {A : Type} (l : list A) : (0 <= len l)%Z.
Proof. unfold len. lia. Qed.

(** A negative index [-k] with [1 <= k <= len(l)] reads position
    [len(l) - k]. *)
Lemma index_from_end {A : Type} (l : list A) (k : Z) (d : A) :
  (1 <= k <= len l)%Z ->
  index l (- k) = Ok (nth (List.length l - Z.to_nat k) l d).
Proof.
  intros Hk. unfold index.
  assert (E : (- k <? 0)%Z = true) by (apply Z.ltb_lt; lia).
  rewrite E.
  assert (E1 : ((- k + len l <? 0) || (len l <=? - k + len l))%Z = false).
  { apply orb_false_iff. split; [apply Z.ltb_ge | apply Z.leb_gt]; lia. }
  rewrite E1.
  assert (E2 : Z.to_nat (- k + len l) = (List.length l - Z.to_nat k)%nat).
  { unfold len in *. lia. }
  rewrite E2.
  destruct (nth_error l (List.length l - Z.to_nat k)) eqn:En.
  - now rewrite (nth_error_nth _ _ d En).
  - apply nth_error_None in En. unfold len in Hk. lia.
Qed.

(** [l[-w:]] with [1 <= w <= len(l)] is the last [w] entries. *)
Lemma slice_from_end {A : Type} (l : list A) (w : Z) :
  (1 <= w <= len l)%Z ->
  slice_from l (- w) = skipn (List.length l - Z.to_nat w) l.
Proof.
  intros Hw. unfold slice_from, bound.
  assert (E : (- w <? 0)%Z = true) by (apply Z.ltb_lt; lia).
  rewrite E. f_equal. unfold len in *. lia.
Qed.

(** [l[:p]] and [l[p:]] with [0 <= p] split [l] at position [p]. *)
Lemma slice_to_nonneg {A : Type} (l : list A) (p : Z) :
  (0 <= p)%Z -> slice_to l p = firstn (Z.to_nat p) l.
Proof.
  intros Hp. unfold slice_to, bound.
  assert (E : (p <? 0)%Z = false) by (apply Z.ltb_ge; lia).
  rewrite E.
  destruct (Z.le_gt_cases p (len l)) as [H|H].
  - f_equal. lia.
  - replace (Z.to_nat (Z.max 0 (Z.min (len l) p))) with (List.length l)
      by (unfold len in *; lia).
    rewrite firstn_all. symmetry. apply firstn_all2. unfold len in H. lia.
Qed.

Lemma slice_from_nonneg {A : Type} (l : list A) (p : Z) :
  (0 <= p)%Z -> slice_from l p = skipn (Z.to_nat p) l.
Proof.
  intros Hp. unfold slice_from, bound.
  assert (E : (p <? 0)%Z = false) by (apply Z.ltb_ge; lia).
  rewrite E.
  destruct (Z.le_gt_cases p (len l)) as [H|H].
  - f_equal. lia.
  - replace (Z.to_nat (Z.max 0 (Z.min (len l) p))) with (List.length l)
      by (unfold len in *; lia).
    rewrite skipn_all. symmetry. apply skipn_all2. unfold len in H. lia.
Qed.

(** [sum] adds the entries to its starting value. *)
Lemma fold_left_Qplus (l : list Q) (a : Q) :
  fold_left Qplus l a == a + fold_right Qplus 0 l.
Proof.
  revert a. induction l as [|x l IH]; intro a; simpl.
  - ring.
  - rewrite IH. ring.
Qed.

Lemma sum_fold_right (l : list Q) : sum l == fold_right Qplus 0 l.
Proof. unfold sum. rewrite fold_left_Qplus. ring. Qed.

(** ** Simple moving average *)

Lemma calc_sma_short (values : list Q) (window : Z) :
  (len values < window)%Z -> calc_sma values window = Ok None.
Proof.
  intro H. unfold calc_sma.
  now rewrite (proj2 (Z.ltb_lt _ _) H).
Qed.

Lemma calc_sma_long (values : list Q) (window : Z) :
  (window <= len values)%Z -> window <> 0%Z ->
  calc_sma values window =
  Ok (Some (sum (slice_from values (- window)) / inject_Z window)).
Proof.
  intros H Hw. unfold calc_sma.
  rewrite (proj2 (Z.ltb_ge _ _) H).
  now rewrite (div_ok _ _ (inject_Z_nonzero _ Hw)).
Qed.

(** C5: for a positive window, SMA is unavailable exactly when the list
    is shorter than the window; otherwise it is the arithmetic mean of
    the last [window] entries, and SMA([1,2,3,4,5], 3) is 4.0. *)
Theorem calc_sma_mean_of_last (values : list Q) (window : Z) :
  (0 < window)%Z ->
  (calc_sma values window = Ok None <-> (len values < window)%Z) /\
  ((window <= len values)%Z ->
   exists m, calc_sma values window = Ok (Some m) /\
             m == Spec.mean (Spec.last_n (Z.to_nat window) values)) /\
  (exists m, calc_sma [1; 2; 3; 4; 5] 3 = Ok (Some m) /\ m == 4.0).
Proof.
  intro Hw. split; [|split].
  - split; [|apply calc_sma_short].
    intro H. destruct (Z.lt_ge_cases (len values) window) as [Hlt|Hge]; [exact Hlt|].
    rewrite calc_sma_long in H by lia. discriminate.
  - intro Hle. eexists. split; [apply calc_sma_long; lia|].
    rewrite slice_from_end by lia.
    unfold Spec.mean, Spec.last_n.
    rewrite length_skipn.
    replace (Z.of_nat (List.length values - (List.length values - Z.to_nat window)))
      with window by (unfold len in Hle; lia).
    now rewrite sum_fold_right.
  - eexists. split; reflexivity.
Qed.

Lemma calc_sma_mean_of_last_witness :
  (0 < 2)%Z /\
  exists m, calc_sma [10; 20; 40] 2 = Ok (Some m) /\
            m == Spec.mean (Spec.last_n 2 [10; 20; 40]).
Proof.
  split; [lia|].
  apply (proj1 (proj2 (calc_sma_mean_of_last [10; 20; 40] 2 ltac:(lia)))).
  vm_compute. discriminate.
Defined.

(** C10: the window is not validated.  For a window that is not positive
    the length guard never fires, so the answer is never "unavailable";
    the call raises a division by zero exactly when the window is 0, and
    that is so for every list. *)
Theorem calc_sma_window_unchecked (values : list Q) (window : Z) :
  (window <= 0)%Z ->
  calc_sma values window <> Ok None /\
  (calc_sma values window = Raise ZeroDivisionError <-> window = 0%Z).
Proof.
  intro Hw.
  assert (Hlen : (len values <? window)%Z = false).
  { apply Z.ltb_ge. pose proof (len_nonneg values). lia. }
  unfold calc_sma. rewrite Hlen.
  destruct (Z.eq_dec window 0) as [->|Hne].
  - rewrite div_zero by reflexivity. simpl.
    split; [discriminate | tauto].
  - rewrite (div_ok _ _ (inject_Z_nonzero _ Hne)). simpl.
    split; [discriminate|]. split; [discriminate | contradiction].
Qed.

Lemma calc_sma_window_unchecked_witness :
  (0 <= 0)%Z /\ calc_sma [1; 2; 3] 0 = Raise ZeroDivisionError.
Proof.
  split; [lia|].
  apply (proj2 (calc_sma_window_unchecked [1; 2; 3] 0 ltac:(lia))).
  reflexivity.
Defined.

(** ** Momentum *)

Lemma calc_momentum_short (closes : list Q) (period : Z) :
  (len closes < period + 1)%Z -> calc_momentum closes period = Ok None.
Proof.
  intro H. unfold calc_momentum.
  now rewrite (proj2 (Z.ltb_lt _ _) H).
Qed.

Lemma calc_momentum_long (closes : list Q) (period : Z) :
  (0 <= period)%Z -> (period + 1 <= len closes)%Z ->
  exists base_price last_price,
    index closes (- period - 1) = Ok base_price /\
    index closes (-1) = Ok last_price /\
    calc_momentum closes period =
    if Qeq_bool base_price 0 then Ok None
    else Ok (Some ((last_price - base_price) / base_price)).
Proof.
  intros Hp Hlen.
  exists (nth (List.length closes - Z.to_nat (period + 1)) closes 0).
  exists (nth (List.length closes - Z.to_nat 1) closes 0).
  assert (Hb : index closes (- period - 1) =
               Ok (nth (List.length closes - Z.to_nat (period + 1)) closes 0)).
  { replace (- period - 1)%Z with (- (period + 1))%Z by lia.
    apply index_from_end. lia. }
  assert (Hl : index closes (-1) =
               Ok (nth (List.length closes - Z.to_nat 1) closes 0)).
  { apply (index_from_end closes 1). lia. }
  split; [exact Hb|]. split; [exact Hl|].
  unfold calc_momentum.
  rewrite (proj2 (Z.ltb_ge _ _) Hlen), Hb, Hl. simpl.
  destruct (Qeq_bool _ 0) eqn:E; [reflexivity|].
  rewrite div_ok by (apply Qeq_bool_neq; exact E). reflexivity.
Qed.

(** C4: for a positive period, momentum is unavailable exactly when the
    list has fewer than [p+1] entries or the reference price
    [closes[-p-1]] is 0; otherwise it is the ratio
    [(closes[-1] - closes[-p-1]) / closes[-p-1]]; it never raises. *)
Theorem calc_momentum_ratio (closes : list Q) (p : Z) :
  (0 < p)%Z ->
  (exists r, calc_momentum closes p = Ok r) /\
  (calc_momentum closes p = Ok None <->
   (len closes < p + 1)%Z \/
   exists b, index closes (- p - 1) = Ok b /\ b == 0) /\
  ((p + 1 <= len closes)%Z ->
   exists b l,
     index closes (- p - 1) = Ok b /\ index closes (-1) = Ok l /\
     (~ b == 0 -> calc_momentum closes p = Ok (Some ((l - b) / b)))).
Proof.
  intro Hp.
  destruct (Z.lt_ge_cases (len closes) (p + 1)) as [Hlt|Hge].
  - pose proof (calc_momentum_short closes p Hlt) as E.
    split; [eauto|]. split; [|lia].
    split; [intros _; now left | intros _; exact E].
  - destruct (calc_momentum_long closes p ltac:(lia) Hge) as (b & l & Hb & Hl & E).
    split; [|split].
    + rewrite E. destruct (Qeq_bool b 0); eauto.
    + rewrite E. split.
      * intro H. right. exists b. split; [exact Hb|].
        destruct (Qeq_bool b 0) eqn:Eb; [|discriminate].
        now apply Qeq_bool_eq.
      * intros [Hlt | (b' & Hb' & Hz)]; [lia|].
        rewrite Hb in Hb'. injection Hb' as <-.
        now rewrite (Qeq_eq_bool _ _ Hz).
    + intros _. exists b, l. split; [exact Hb|]. split; [exact Hl|].
      intro Hnz. rewrite E.
      destruct (Qeq_bool b 0) eqn:Eb; [|reflexivity].
      apply Qeq_bool_eq in Eb. contradiction.
Qed.

Lemma calc_momentum_ratio_witness :
  (0 < 3)%Z /\ calc_momentum [10; 10; 10; 12] 3 = Ok (Some ((12 - 10) / 10)).
Proof.
  split; [lia|].
  destruct (calc_momentum_ratio [10; 10; 10; 12] 3 ltac:(lia)) as (_ & _ & H).
  destruct (H ltac:(vm_compute; discriminate)) as (b & l & Hb & Hl & E).
  injection Hb as <-. injection Hl as <-.
  apply E. vm_compute. discriminate.
Defined.

(** ** Relative strength index *)

Lemma calc_rsi_short (closes : list Q) (period : Z) :
  (len closes < period + 1)%Z -> calc_rsi closes period = Ok None.
Proof.
  intro H. unfold calc_rsi.
  now rewrite (proj2 (Z.ltb_lt _ _) H).
Qed.

Lemma seed_loop_maps (chs gains losses : list Q) :
  seed_loop chs gains losses =
  (gains ++ map seed_gain_of chs, losses ++ map seed_loss_of chs).
Proof.
  revert gains losses.
  induction chs as [|ch rest IH]; intros gains losses; simpl.
  - now rewrite !app_nil_r.
  - unfold seed_gain_of, seed_loss_of.
    destruct (ltb 0 ch); rewrite IH, <- !app_assoc; reflexivity.
Qed.

Lemma smooth_loop_wilder (period : Z) (chs : list Q) (avg_gain avg_loss : Q) :
  period <> 0%Z ->
  smooth_loop period chs avg_gain avg_loss =
  Ok (wilder period gain_of chs avg_gain, wilder period loss_of chs avg_loss).
Proof.
  intro Hp. revert avg_gain avg_loss.
  induction chs as [|ch rest IH]; intros avg_gain avg_loss; simpl.
  - reflexivity.
  - rewrite !(div_ok _ _ (inject_Z_nonzero _ Hp)). simpl.
    rewrite IH. reflexivity.
Qed.

(** The index loop computes the successive differences. *)
Lemma changes_of_diffs (closes : list Q) : changes_of closes = Spec.diffs closes.
Proof.
  unfold changes_of.
  induction closes as [|a rest IH]; [reflexivity|].
  destruct rest as [|b rest]; [reflexivity|].
  change (Spec.diffs (a :: b :: rest)) with ((b - a) :: Spec.diffs (b :: rest)).
  rewrite <- IH.
  change (List.length (a :: b :: rest) - 1)%nat with (S (List.length rest)).
  change (List.length (b :: rest) - 1)%nat with (List.length rest - 0)%nat.
  rewrite Nat.sub_0_r.
  change (seq 1 (S (List.length rest))) with (1%nat :: seq 2 (List.length rest)).
  rewrite <- (seq_shift (List.length rest) 1).
  rewrite map_cons, map_map. f_equal.
  apply map_ext_in. intros i Hi. apply in_seq in Hi.
  destruct i as [|i]; [lia|].
  simpl. rewrite Nat.sub_0_r. reflexivity.
Qed.

Lemma length_diffs (closes : list Q) :
  List.length (Spec.diffs closes) = (List.length closes - 1)%nat.
Proof.
  induction closes as [|a rest IH]; [reflexivity|].
  destruct rest as [|b rest]; [reflexivity|].
  change (Spec.diffs (a :: b :: rest)) with ((b - a) :: Spec.diffs (b :: rest)).
  simpl List.length in *. lia.
Qed.

(** *** Signs of the averages *)

Lemma seed_gain_of_nonneg (ch : Q) : 0 <= seed_gain_of ch.
Proof.
  unfold seed_gain_of. destruct (ltb 0 ch) eqn:E.
  - apply ltb_true in E. lra.
  - lra.
Qed.

Lemma seed_loss_of_nonneg (ch : Q) : 0 <= seed_loss_of ch.
Proof.
  unfold seed_loss_of. destruct (ltb 0 ch) eqn:E.
  - lra.
  - apply ltb_false in E. lra.
Qed.

Lemma gain_of_nonneg (ch : Q) : 0 <= gain_of ch.
Proof. exact (seed_gain_of_nonneg ch). Qed.

Lemma loss_of_nonneg (ch : Q) : 0 <= loss_of ch.
Proof.
  unfold loss_of. destruct (ltb ch 0) eqn:E.
  - apply ltb_true in E. lra.
  - lra.
Qed.

Lemma fold_right_Qplus_nonneg (l : list Q) :
  Forall (fun x => 0 <= x) l -> 0 <= fold_right Qplus 0 l.
Proof.
  induction 1 as [|x l Hx _ IH]; simpl; lra.
Qed.

Lemma sum_map_nonneg (part : Q -> Q) (l : list Q) :
  (forall x, 0 <= part x) -> 0 <= sum (map part l).
Proof.
  intro H. rewrite sum_fold_right.
  apply fold_right_Qplus_nonneg.
  apply Forall_forall. intros y Hy.
  apply in_map_iff in Hy. destruct Hy as (x & <- & _). apply H.
Qed.

Lemma inject_Z_pos (z : Z) : (0 < z)%Z -> 0 < inject_Z z.
Proof.
  intro H. change 0 with (inject_Z 0). now rewrite <- Zlt_Qlt.
Qed.

Lemma Qdiv_nonneg (a b : Q) : 0 <= a -> 0 < b -> 0 <= a / b.
Proof.
  intros Ha Hb. apply Qle_shift_div_l; [exact Hb|]. lra.
Qed.

Lemma wilder_nonneg (period : Z) (part : Q -> Q) (chs : list Q) (avg : Q) :
  (1 <= period)%Z -> (forall x, 0 <= part x) -> 0 <= avg ->
  0 <= wilder period part chs avg.
Proof.
  intros Hp Hpart. unfold wilder. revert avg.
  induction chs as [|ch rest IH]; intros avg Havg; simpl; [exact Havg|].
  apply IH. apply Qdiv_nonneg; [|apply inject_Z_pos; lia].
  assert (H1 : 0 <= inject_Z (period - 1)).
  { change 0 with (inject_Z 0). rewrite <- Zle_Qle. lia. }
  pose proof (Hpart ch). nra.
Qed.

Lemma final_avg_gain_nonneg (closes : list Q) (period : Z) :
  (1 <= period)%Z -> 0 <= final_avg_gain closes period.
Proof.
  intro Hp. unfold final_avg_gain.
  apply wilder_nonneg; [exact Hp | apply gain_of_nonneg |].
  apply Qdiv_nonneg; [|apply inject_Z_pos; lia].
  apply sum_map_nonneg, seed_gain_of_nonneg.
Qed.

Lemma final_avg_loss_nonneg (closes : list Q) (period : Z) :
  (1 <= period)%Z -> 0 <= final_avg_loss closes period.
Proof.
  intro Hp. unfold final_avg_loss.
  apply wilder_nonneg; [exact Hp | apply loss_of_nonneg |].
  apply Qdiv_nonneg; [|apply inject_Z_pos; lia].
  apply sum_map_nonneg, seed_loss_of_nonneg.
Qed.

(** *** The value returned *)

Lemma calc_rsi_long (closes : list Q) (period : Z) :
  (1 <= period)%Z -> (period + 1 <= len closes)%Z ->
  calc_rsi closes period =
  Ok (Some (rsi_of (final_avg_gain closes period) (final_avg_loss closes period))).
Proof.
  intros Hp Hlen.
  pose proof (final_avg_gain_nonneg closes period Hp) as Hg.
  pose proof (final_avg_loss_nonneg closes period Hp) as Hl.
  unfold final_avg_gain, final_avg_loss, rsi_of in *.
  unfold calc_rsi.
  rewrite (proj2 (Z.ltb_ge _ _) Hlen).
  cbv zeta.
  rewrite seed_loop_maps. simpl app.
  rewrite slice_to_nonneg, slice_from_nonneg by lia.
  assert (Hnz : ~ inject_Z period == 0) by (apply inject_Z_nonzero; lia).
  rewrite !(div_ok _ _ Hnz). simpl bind.
  rewrite smooth_loop_wilder by lia. simpl bind.
  set (G := wilder period gain_of _ _) in *.
  set (L := wilder period loss_of _ _) in *.
  destruct (Qeq_bool L 0) eqn:E; [reflexivity|].
  apply Qeq_bool_neq in E.
  rewrite (div_ok _ _ E). simpl bind.
  assert (Hrs : 0 <= G / L).
  { apply Qdiv_nonneg; [exact Hg|]. lra. }
  rewrite div_ok by lra. reflexivity.
Qed.

Lemma calc_rsi_total (closes : list Q) (period : Z) :
  (1 <= period)%Z -> exists r, calc_rsi closes period = Ok r.
Proof.
  intro Hp.
  destruct (Z.lt_ge_cases (len closes) (period + 1)) as [H|H].
  - rewrite calc_rsi_short by exact H. eauto.
  - rewrite calc_rsi_long by assumption. eauto.
Qed.

(** With [period = 0] a non-empty list gets past the length guard and the
    seed division raises. *)
Lemma calc_rsi_period_zero (closes : list Q) :
  closes <> [] -> calc_rsi closes 0 = Raise ZeroDivisionError.
Proof.
  intro Hne. unfold calc_rsi.
  assert (E : (len closes <? 0 + 1)%Z = false).
  { apply Z.ltb_ge. destruct closes; [contradiction|]. unfold len. simpl. lia. }
  rewrite E. cbv zeta.
  rewrite slice_to_nonneg by lia. simpl.
  reflexivity.
Qed.

Example calc_rsi_spec_closes :
  exists v, calc_rsi spec_closes 14 = Ok (Some v) /\ v == 87.5.
Proof.
  eexists. split; [vm_compute; reflexivity|]. unfold Qeq. reflexivity.
Qed.

(** *** Range *)

Lemma rsi_of_range (g l : Q) :
  0 <= g -> 0 <= l ->
  0 <= rsi_of g l /\ rsi_of g l <= 100 /\
  (~ l == 0 -> rsi_of g l < 100) /\
  (rsi_of g l == 0 <-> g == 0 /\ ~ l == 0).
Proof.
  intros Hg Hl. unfold rsi_of.
  destruct (Qeq_bool l 0) eqn:E.
  - apply Qeq_bool_eq in E.
    repeat split; lra.
  - apply Qeq_bool_neq in E.
    assert (Hlp : 0 < l) by lra.
    assert (Hrs : 0 <= g / l) by (apply Qdiv_nonneg; assumption).
    assert (Hd : 0 < 1.0 + g / l) by lra.
    assert (Hq : 0 < 100.0 / (1.0 + g / l)).
    { apply Qlt_shift_div_l; [exact Hd|]. lra. }
    assert (Hq' : 100.0 / (1.0 + g / l) <= 100).
    { apply Qle_shift_div_r; [exact Hd|]. lra. }
    split; [lra|]. split; [lra|]. split; [intros _; lra|].
    assert (Hgl : g == (g / l) * l) by (field; exact E).
    split.
    + intro H0. split; [|exact E].
      assert (Hone : 100.0 / (1.0 + g / l) * (1.0 + g / l) == 100.0)
        by (field; lra).
      assert (Hz : g / l == 0) by nra.
      rewrite Hgl, Hz. ring.
    + intros [Hz _].
      assert (Hz' : g / l == 0) by (rewrite Hz; field; exact E).
      rewrite Hz'. reflexivity.
Qed.

(** C7, as amended: with [period >= 1] and at least [period+1] closes the
    RSI is returned and lies in the closed interval [0, 100]; when the
    final [avg_loss] is not 0 it is below 100; and it is 0 exactly when
    the final [avg_gain] is 0 while [avg_loss] is not. *)
Theorem calc_rsi_range (closes : list Q) (period : Z) :
  (1 <= period)%Z -> (period + 1 <= len closes)%Z ->
  exists v,
    calc_rsi closes period = Ok (Some v) /\
    0 <= v /\ v <= 100 /\
    (~ final_avg_loss closes period == 0 -> v < 100) /\
    (v == 0 <->
     final_avg_gain closes period == 0 /\ ~ final_avg_loss closes period == 0).
Proof.
  intros Hp Hlen. eexists. split; [apply calc_rsi_long; assumption|].
  apply rsi_of_range.
  - apply final_avg_gain_nonneg, Hp.
  - apply final_avg_loss_nonneg, Hp.
Qed.

Lemma calc_rsi_range_witness :
  (1 <= 14)%Z /\ (14 + 1 <= len spec_closes)%Z /\
  exists v, calc_rsi spec_closes 14 = Ok (Some v) /\ 0 <= v /\ v <= 100.
Proof.
  split; [lia|]. split; [vm_compute; discriminate|].
  destruct (calc_rsi_range spec_closes 14) as (v & Hv & H0 & H100 & _).
  - lia.
  - vm_compute; discriminate.
  - exists v. auto.
Defined.

(** C7, as stated, fails: on a series that only falls the RSI is 0, which
    is not strictly greater than 0. *)
Lemma calc_rsi_zero_on_falling :
  (14 + 1 <= len falling_closes)%Z /\
  exists v, calc_rsi falling_closes 14 = Ok (Some v) /\ v == 0 /\ ~ 0 < v.
Proof.
  split; [vm_compute; discriminate|].
  eexists. split; [vm_compute; reflexivity|].
  split; [unfold Qeq; reflexivity|].
  apply Qle_not_lt. unfold Qle. simpl. lia.
Qed.

(** *** The specification's two phases *)

Lemma zero_point_zero : 0.0 == 0.
Proof. reflexivity. Qed.

Lemma spec_seed_gain (d : Q) : Spec.seed_gain d == seed_gain_of d.
Proof.
  unfold Spec.seed_gain, seed_gain_of.
  destruct (d ?= 0) eqn:C; destruct (ltb 0 d) eqn:E; try reflexivity.
  - apply ltb_true in E. apply Qeq_alt in C. lra.
  - apply ltb_true in E. apply Qlt_alt in C. lra.
  - apply ltb_false in E. apply Qgt_alt in C. lra.
Qed.

Lemma spec_seed_loss (d : Q) : Spec.seed_loss d == seed_loss_of d.
Proof.
  unfold Spec.seed_loss, seed_loss_of.
  destruct (d ?= 0) eqn:C; destruct (ltb 0 d) eqn:E; try reflexivity.
  - apply Qeq_alt in C. lra.
  - apply ltb_true in E. apply Qlt_alt in C. lra.
  - apply ltb_false in E. apply Qgt_alt in C. lra.
Qed.

Lemma spec_max_gain (d : Q) : Qmax d 0 == gain_of d.
Proof.
  unfold gain_of. destruct (ltb 0 d) eqn:E.
  - apply ltb_true in E. apply Q.max_l. lra.
  - apply ltb_false in E. rewrite Q.max_r by exact E. reflexivity.
Qed.

Lemma spec_max_loss (d : Q) : Qmax (- d) 0 == loss_of d.
Proof.
  unfold loss_of. destruct (ltb d 0) eqn:E.
  - apply ltb_true in E. apply Q.max_l. lra.
  - apply ltb_false in E. rewrite Q.max_r by lra. reflexivity.
Qed.

Lemma fold_right_Qplus_ext (f g : Q -> Q) (l : list Q) :
  (forall x, f x == g x) ->
  fold_right Qplus 0 (map f l) == fold_right Qplus 0 (map g l).
Proof.
  intro H. induction l as [|x l IH]; simpl; [reflexivity|].
  now rewrite IH, H.
Qed.

Lemma inject_Z_pred (z : Z) : inject_Z (z - 1) == inject_Z z - 1.
Proof.
  unfold Qeq, Qminus, Qplus, Qopp, inject_Z. simpl. lia.
Qed.

Lemma spec_smooth_wilder (period : Z) (f g : Q -> Q) (chs : list Q) (a b : Q) :
  (forall x, f x == g x) -> a == b ->
  fold_left (fun avg x => Spec.smooth period avg (f x)) chs a ==
  wilder period g chs b.
Proof.
  intro H. unfold wilder. revert a b.
  induction chs as [|ch rest IH]; intros a b Hab; simpl; [exact Hab|].
  apply IH. unfold Spec.smooth.
  now rewrite Hab, H, inject_Z_pred.
Qed.

Lemma spec_mean_seed (period : Z) (f g : Q -> Q) (d : list Q) :
  (forall x, f x == g x) ->
  (Z.to_nat period <= List.length d)%nat -> (0 <= period)%Z ->
  Spec.mean (map f (firstn (Z.to_nat period) d)) ==
  sum (map g (firstn (Z.to_nat period) d)) / inject_Z period.
Proof.
  intros H Hlen Hp. unfold Spec.mean.
  rewrite length_map, length_firstn, Nat.min_l by exact Hlen.
  rewrite Z2Nat.id by exact Hp.
  now rewrite sum_fold_right, (fold_right_Qplus_ext f g).
Qed.

Lemma spec_avg_gain (closes : list Q) (period : Z) :
  (1 <= period)%Z -> (period + 1 <= len closes)%Z ->
  Spec.avg_gain closes period == final_avg_gain closes period.
Proof.
  intros Hp Hlen. unfold Spec.avg_gain, final_avg_gain. cbv zeta.
  rewrite changes_of_diffs.
  apply spec_smooth_wilder; [apply spec_max_gain|].
  apply spec_mean_seed; [apply spec_seed_gain | | lia].
  rewrite length_diffs. unfold len in Hlen. lia.
Qed.

Lemma spec_avg_loss (closes : list Q) (period : Z) :
  (1 <= period)%Z -> (period + 1 <= len closes)%Z ->
  Spec.avg_loss closes period == final_avg_loss closes period.
Proof.
  intros Hp Hlen. unfold Spec.avg_loss, final_avg_loss. cbv zeta.
  rewrite changes_of_diffs.
  apply spec_smooth_wilder; [apply spec_max_loss|].
  apply spec_mean_seed; [apply spec_seed_loss | | lia].
  rewrite length_diffs. unfold len in Hlen. lia.
Qed.

(** C2: a list shorter than [period+1] gives "unavailable"; with
    [period >= 1] and at least [period+1] closes, with the averages seeded
    by the plain mean over the first [period] differences and smoothed
    once for every later difference in order, the result is exactly 100.0
    when the final [avg_loss] is 0 and [100 - 100/(1 + avg_gain/avg_loss)]
    when it is not. *)
Theorem calc_rsi_seed_then_smooth (closes : list Q) (period : Z) :
  ((len closes < period + 1)%Z -> calc_rsi closes period = Ok None) /\
  ((1 <= period)%Z -> (period + 1 <= len closes)%Z ->
   (Spec.avg_loss closes period == 0 ->
    calc_rsi closes period = Ok (Some 100.0)) /\
   (~ Spec.avg_loss closes period == 0 ->
    exists v,
      calc_rsi closes period = Ok (Some v) /\
      v == 100 - 100 / (1 + Spec.avg_gain closes period / Spec.avg_loss closes period))).
Proof.
  split; [apply calc_rsi_short|].
  intros Hp Hlen.
  pose proof (spec_avg_gain closes period Hp Hlen) as HG.
  pose proof (spec_avg_loss closes period Hp Hlen) as HL.
  rewrite calc_rsi_long by assumption. unfold rsi_of.
  split.
  - intro Hz. rewrite HL in Hz. now rewrite (Qeq_eq_bool _ _ Hz).
  - intro Hnz. rewrite HL in Hnz.
    destruct (Qeq_bool (final_avg_loss closes period) 0) eqn:E.
    + apply Qeq_bool_eq in E. contradiction.
    + eexists. split; [reflexivity|].
      rewrite HG, HL.
      setoid_replace 100.0 with 100 by (unfold Qeq; reflexivity).
      setoid_replace 1.0 with 1 by (unfold Qeq; reflexivity).
      reflexivity.
Qed.

Lemma calc_rsi_seed_then_smooth_witness :
  (1 <= 14)%Z /\ (14 + 1 <= len spec_closes)%Z /\
  exists v,
    calc_rsi spec_closes 14 = Ok (Some v) /\
    v == 100 - 100 / (1 + Spec.avg_gain spec_closes 14 / Spec.avg_loss spec_closes 14).
Proof.
  split; [lia|]. split; [vm_compute; discriminate|].
  destruct (calc_rsi_seed_then_smooth spec_closes 14) as [_ H].
  destruct (H ltac:(lia) ltac:(vm_compute; discriminate)) as [_ H'].
  apply H'. vm_compute. discriminate.
Defined.

(** *** Series without a loss, series without a gain *)

Lemma Forall_split_at {A : Type} (P : A -> Prop) (n : nat) (l : list A) :
  Forall P l -> Forall P (firstn n l) /\ Forall P (skipn n l).
Proof.
  intro H. rewrite <- (firstn_skipn n l) in H.
  now apply Forall_app in H.
Qed.

Lemma sum_map_zero (part : Q -> Q) (l : list Q) :
  Forall (fun x => part x == 0) l -> sum (map part l) == 0.
Proof.
  intro H. rewrite sum_fold_right.
  induction H as [|x l Hx _ IH]; simpl; [reflexivity|].
  rewrite Hx, IH. ring.
Qed.

Lemma wilder_zero (period : Z) (part : Q -> Q) (chs : list Q) (avg : Q) :
  Forall (fun x => part x == 0) chs -> avg == 0 ->
  wilder period part chs avg == 0.
Proof.
  intro H. unfold wilder. revert avg.
  induction H as [|x l Hx _ IH]; intros avg Havg; simpl; [exact Havg|].
  apply IH. rewrite Havg, Hx. unfold Qdiv. ring.
Qed.

Lemma final_avg_zero (period : Z) (seed part : Q -> Q) (P : Q -> Prop)
    (changes : list Q) :
  (forall ch, P ch -> seed ch == 0) -> (forall ch, P ch -> part ch == 0) ->
  Forall P changes ->
  wilder period part (skipn (Z.to_nat period) changes)
    (sum (map seed (firstn (Z.to_nat period) changes)) / inject_Z period) == 0.
Proof.
  intros Hseed Hpart H.
  destruct (Forall_split_at P (Z.to_nat period) changes H) as [Hf Hs].
  apply wilder_zero.
  - revert Hs. apply Forall_impl. exact Hpart.
  - rewrite sum_map_zero.
    + unfold Qdiv. ring.
    + revert Hf. apply Forall_impl. exact Hseed.
Qed.

Lemma final_avg_loss_zero (closes : list Q) (period : Z) :
  Forall (fun ch => 0 <= ch) (changes_of closes) ->
  final_avg_loss closes period == 0.
Proof.
  unfold final_avg_loss. cbv zeta. apply final_avg_zero.
  - intros ch Hch. unfold seed_loss_of.
    destruct (ltb 0 ch) eqn:E; [reflexivity|].
    apply ltb_false in E. lra.
  - intros ch Hch. unfold loss_of.
    destruct (ltb ch 0) eqn:E; [|reflexivity].
    apply ltb_true in E. lra.
Qed.

Lemma final_avg_gain_zero (closes : list Q) (period : Z) :
  Forall (fun ch => ch <= 0) (changes_of closes) ->
  final_avg_gain closes period == 0.
Proof.
  unfold final_avg_gain. cbv zeta. apply final_avg_zero.
  - intros ch Hch. unfold seed_gain_of.
    destruct (ltb 0 ch) eqn:E; [|reflexivity].
    apply ltb_true in E. lra.
  - intros ch Hch. unfold gain_of.
    destruct (ltb 0 ch) eqn:E; [|reflexivity].
    apply ltb_true in E. lra.
Qed.

Lemma calc_rsi_no_loss (closes : list Q) (period : Z) :
  (1 <= period)%Z -> (period + 1 <= len closes)%Z ->
  Forall (fun ch => 0 <= ch) (changes_of closes) ->
  calc_rsi closes period = Ok (Some 100.0).
Proof.
  intros Hp Hlen H.
  rewrite calc_rsi_long by assumption. unfold rsi_of.
  now rewrite (Qeq_eq_bool _ _ (final_avg_loss_zero closes period H)).
Qed.

Lemma increasing_diffs (closes : list Q) :
  increasing closes = true -> Forall (fun ch => 0 < ch) (Spec.diffs closes).
Proof.
  induction closes as [|a rest IH]; [constructor|].
  destruct rest as [|b rest]; [constructor|].
  change (increasing (a :: b :: rest)) with (ltb a b && increasing (b :: rest)).
  change (Spec.diffs (a :: b :: rest)) with ((b - a) :: Spec.diffs (b :: rest)).
  intro H. apply andb_true_iff in H. destruct H as [Hab Hrest].
  constructor; [|exact (IH Hrest)].
  apply ltb_true in Hab. lra.
Qed.

Lemma increasing_above_head (a : Q) (rest : list Q) :
  increasing (a :: rest) = true -> Forall (fun x => a < x) rest.
Proof.
  revert a. induction rest as [|b rest IH]; intros a H; [constructor|].
  change (increasing (a :: b :: rest)) with (ltb a b && increasing (b :: rest)) in H.
  apply andb_true_iff in H. destruct H as [Hab Hrest].
  apply ltb_true in Hab.
  constructor; [exact Hab|].
  apply IH in Hrest. revert Hrest. apply Forall_impl.
  intros x Hx. lra.
Qed.

Lemma increasing_tail (a : Q) (rest : list Q) :
  increasing (a :: rest) = true -> increasing rest = true.
Proof.
  destruct rest as [|b rest]; [reflexivity|].
  change (increasing (a :: b :: rest)) with (ltb a b && increasing (b :: rest)).
  intro H. now apply andb_true_iff in H.
Qed.

Lemma increasing_nth (closes : list Q) (i j : nat) :
  increasing closes = true -> (i < j < List.length closes)%nat ->
  nth i closes 0 < nth j closes 0.
Proof.
  revert i j. induction closes as [|a rest IH]; intros i j H Hij.
  - simpl in Hij. lia.
  - destruct j as [|j]; [lia|].
    destruct i as [|i]; simpl nth.
    + pose proof (increasing_above_head a rest H) as Hall.
      rewrite Forall_forall in Hall. apply Hall, nth_In.
      simpl in Hij. lia.
    + apply IH; [exact (increasing_tail a rest H)|]. simpl in Hij. lia.
Qed.

Lemma flat_diffs (c : Q) (closes : list Q) :
  flat c closes -> Forall (fun ch => ch == 0) (Spec.diffs closes).
Proof.
  unfold flat. induction closes as [|a rest IH]; intro H; [constructor|].
  destruct rest as [|b rest]; [constructor|].
  change (Spec.diffs (a :: b :: rest)) with ((b - a) :: Spec.diffs (b :: rest)).
  inversion H as [|? ? Ha Hrest]; subst.
  constructor; [|exact (IH Hrest)].
  inversion Hrest as [|? ? Hb _]; subst.
  rewrite Ha, Hb. ring.
Qed.

(** C8, as amended: on a strictly increasing series whose reference
    price [closes[-4]] is positive, the 3-day momentum is available and
    strictly positive (at least 4 closes); and on every strictly
    increasing series of at least 15 closes RSI(14) is exactly 100.0. *)
Theorem rising_series_indicators (closes : list Q) :
  increasing closes = true ->
  ((4 <= len closes)%Z ->
   forall b, index closes (-4) = Ok b -> 0 < b ->
   exists m, calc_momentum closes 3 = Ok (Some m) /\ 0 < m) /\
  ((15 <= len closes)%Z -> calc_rsi closes 14 = Ok (Some 100.0)).
Proof.
  intro Hinc. split.
  - intros Hlen b Hb Hpos.
    destruct (calc_momentum_long closes 3 ltac:(lia) ltac:(lia))
      as (b' & l & Hb' & Hl & E).
    assert (Hbb : Ok b = Ok b') by (rewrite <- Hb; exact Hb').
    injection Hbb as <-.
    assert (Hbl : b < l).
    { assert (H4 : index closes (-4) =
                   Ok (nth (List.length closes - Z.to_nat 4) closes 0))
        by (apply (index_from_end closes 4 0); lia).
      assert (H1 : index closes (-1) =
                   Ok (nth (List.length closes - Z.to_nat 1) closes 0))
        by (apply (index_from_end closes 1 0); lia).
      rewrite H4 in Hb. rewrite H1 in Hl.
      injection Hb as <-. injection Hl as <-.
      apply increasing_nth; [exact Hinc|]. unfold len in Hlen. lia. }
    rewrite E.
    destruct (Qeq_bool b 0) eqn:Eb.
    + apply Qeq_bool_eq in Eb. lra.
    + eexists. split; [reflexivity|].
      apply Qlt_shift_div_l; [exact Hpos|]. lra.
  - intro Hlen. apply calc_rsi_no_loss; [lia | lia |].
    rewrite changes_of_diffs.
    generalize (increasing_diffs closes Hinc). apply Forall_impl.
    intros ch Hch. lra.
Qed.

Lemma rising_series_indicators_witness :
  increasing rising_closes = true /\
  (exists m, calc_momentum rising_closes 3 = Ok (Some m) /\ 0 < m) /\
  calc_rsi rising_closes 14 = Ok (Some 100.0).
Proof.
  split; [reflexivity|].
  destruct (rising_series_indicators rising_closes eq_refl) as [Hm Hr].
  split.
  - apply (Hm ltac:(vm_compute; discriminate) 12); [reflexivity|].
    unfold Qlt. simpl. lia.
  - apply Hr. vm_compute. discriminate.
Defined.

(** C8, as stated, fails: a strictly increasing series of 15 closes whose
    fourth close from the end is 0 has no 3-day momentum. *)
Lemma calc_momentum_unavailable_on_rising :
  increasing rising_through_zero = true /\
  (15 <= len rising_through_zero)%Z /\
  calc_momentum rising_through_zero 3 = Ok None /\
  ~ (exists m, calc_momentum rising_through_zero 3 = Ok (Some m) /\ 0 < m).
Proof.
  split; [reflexivity|]. split; [vm_compute; discriminate|].
  split; [reflexivity|].
  intros (m & Hm & _). discriminate Hm.
Qed.

(** C9: on a flat series with at least [period+1] closes, every change
    is zero, the final [avg_gain] and [avg_loss] are both 0, and the RSI
    returned is exactly 100.0. *)
Theorem flat_series_rsi (c : Q) (closes : list Q) (period : Z) :
  (1 <= period)%Z -> flat c closes -> (period + 1 <= len closes)%Z ->
  Forall (fun ch => ch == 0) (changes_of closes) /\
  final_avg_gain closes period == 0 /\
  final_avg_loss closes period == 0 /\
  calc_rsi closes period = Ok (Some 100.0).
Proof.
  intros Hp Hflat Hlen.
  assert (Hz : Forall (fun ch => ch == 0) (changes_of closes)).
  { rewrite changes_of_diffs. exact (flat_diffs c closes Hflat). }
  assert (Hup : Forall (fun ch => 0 <= ch) (changes_of closes)).
  { revert Hz. apply Forall_impl. intros ch Hch. lra. }
  assert (Hdown : Forall (fun ch => ch <= 0) (changes_of closes)).
  { revert Hz. apply Forall_impl. intros ch Hch. lra. }
  split; [exact Hz|].
  split; [exact (final_avg_gain_zero closes period Hdown)|].
  split; [exact (final_avg_loss_zero closes period Hup)|].
  apply calc_rsi_no_loss; assumption.
Qed.

Lemma flat_series_rsi_witness :
  (1 <= 2)%Z /\ flat 7 flat_closes /\ (2 + 1 <= len flat_closes)%Z /\
  calc_rsi flat_closes 2 = Ok (Some 100.0).
Proof.
  assert (Hflat : flat 7 flat_closes) by (repeat constructor).
  split; [lia|]. split; [exact Hflat|]. split; [vm_compute; discriminate|].
  apply (flat_series_rsi 7 flat_closes 2); [lia | exact Hflat |].
  vm_compute. discriminate.
Defined.

(** ** Sorting by date *)

Lemma length_insert_by_date (p : Price.t) (l : list Price.t) :
  List.length (insert_by_date p l) = S (List.length l).
Proof.
  induction l as [|q l IH]; simpl; [reflexivity|].
  destruct (Price.date p <=? Price.date q)%Z; simpl; [reflexivity|].
  now rewrite IH.
Qed.

Lemma len_sorted_by_date (prices : list Price.t) :
  len (sorted_by_date prices) = len prices.
Proof.
  unfold len. f_equal.
  induction prices as [|p l IH]; simpl; [reflexivity|].
  now rewrite length_insert_by_date, IH.
Qed.

(** A series that is already oldest-first is left as it is. *)
Lemma sorted_by_date_fixed (prices : list Price.t) :
  oldest_first prices -> sorted_by_date prices = prices.
Proof.
  unfold oldest_first. induction 1 as [|p l Hl IH Hhd]; [reflexivity|].
  simpl. rewrite IH.
  destruct Hhd as [|q l' Hpq]; [reflexivity|].
  simpl. now rewrite (proj2 (Z.leb_le _ _) Hpq).
Qed.

(** ** The two endpoints *)

Lemma calc_sma_total (values : list Q) (window : Z) :
  (0 < window)%Z -> exists r, calc_sma values window = Ok r.
Proof.
  intro Hw.
  destruct (Z.lt_ge_cases (len values) window) as [H|H].
  - rewrite calc_sma_short by exact H. eauto.
  - rewrite calc_sma_long by lia. eauto.
Qed.

Lemma calc_momentum_total (closes : list Q) (period : Z) :
  (0 <= period)%Z -> exists r, calc_momentum closes period = Ok r.
Proof.
  intro Hp.
  destruct (Z.lt_ge_cases (len closes) (period + 1)) as [H|H].
  - rewrite calc_momentum_short by exact H. eauto.
  - destruct (calc_momentum_long closes period Hp H) as (b & l & _ & _ & E).
    rewrite E. destruct (Qeq_bool b 0); eauto.
Qed.

Lemma recent_return_run (base_price latest_close : Q) :
  (if Qle_bool base_price 0 then Ok 0.0
   else div (latest_close - base_price) base_price) =
  Ok (Spec.recent_return base_price latest_close).
Proof.
  unfold Spec.recent_return.
  destruct (Qle_bool base_price 0) eqn:E; [reflexivity|].
  apply div_ok. intro Hz.
  assert (H : Qle_bool base_price 0 = true) by (apply Qle_bool_iff; lra).
  congruence.
Qed.

Lemma index_last_two (prices : list Price.t) (horizon_days : Z) :
  (0 <= horizon_days)%Z -> (horizon_days + 1 <= len prices)%Z ->
  exists latest base,
    index prices (-1) = Ok latest /\
    index prices (- (horizon_days + 1)) = Ok base.
Proof.
  intros Hh Hlen.
  exists (nth (List.length prices - Z.to_nat 1) prices (bar 0 0)).
  exists (nth (List.length prices - Z.to_nat (horizon_days + 1)) prices (bar 0 0)).
  split.
  - apply (index_from_end prices 1). lia.
  - apply index_from_end. lia.
Qed.

Lemma predict_dummy_run (stock : Stock.t) (prices : list Price.t)
    (stock_id horizon_days : Z) :
  (1 <= horizon_days)%Z -> (horizon_days + 1 <= len prices)%Z ->
  exists latest base rsi_14 mom_3d,
    index (sorted_by_date prices) (-1) = Ok latest /\
    index (sorted_by_date prices) (- (horizon_days + 1)) = Ok base /\
    calc_rsi (map Price.close (sorted_by_date prices)) 14 = Ok rsi_14 /\
    calc_momentum (map Price.close (sorted_by_date prices)) 3 = Ok mom_3d /\
    predict_dummy (Some stock) prices stock_id horizon_days =
    Ok {| PredictionSummary.stock_id := stock_id;
          PredictionSummary.horizon_days := horizon_days;
          PredictionSummary.latest_date := Some (Price.date latest);
          PredictionSummary.latest_close := Some (Price.close latest);
          PredictionSummary.prob_up :=
            prob_up_of (Spec.recent_return (Price.close base) (Price.close latest))
                       rsi_14 mom_3d;
          PredictionSummary.expected_return :=
            Spec.recent_return (Price.close base) (Price.close latest) * 100.0;
          PredictionSummary.model_version := "dummy_v1" |}.
Proof.
  intros Hh Hlen.
  destruct (index_last_two (sorted_by_date prices) horizon_days)
    as (latest & base & Hlatest & Hbase);
    [lia | rewrite len_sorted_by_date; exact Hlen |].
  destruct (calc_rsi_total (map Price.close (sorted_by_date prices)) 14)
    as [rsi_14 Hrsi]; [lia|].
  destruct (calc_momentum_total (map Price.close (sorted_by_date prices)) 3)
    as [mom_3d Hmom]; [lia|].
  exists latest, base, rsi_14, mom_3d.
  repeat (split; [assumption|]).
  unfold predict_dummy.
  rewrite (proj2 (Z.ltb_ge _ _) Hh), (proj2 (Z.ltb_ge _ _) Hlen).
  cbv zeta. rewrite Hlatest. simpl bind. rewrite Hbase. simpl bind.
  rewrite recent_return_run. simpl bind.
  rewrite Hrsi. simpl bind. rewrite Hmom. reflexivity.
Qed.

Lemma get_stock_full_summary_run (stock : Stock.t) (prices : list Price.t)
    (stock_id horizon_days : Z) :
  (0 <= horizon_days)%Z -> (horizon_days + 1 <= len prices)%Z ->
  exists latest base rsi_14 momentum_3d s,
    index (sorted_by_date prices) (-1) = Ok latest /\
    index (sorted_by_date prices) (- (horizon_days + 1)) = Ok base /\
    calc_rsi (map Price.close (sorted_by_date prices)) 14 = Ok rsi_14 /\
    calc_momentum (map Price.close (sorted_by_date prices)) 3 = Ok momentum_3d /\
    get_stock_full_summary (Some stock) prices stock_id horizon_days = Ok s /\
    StockFullSummary.prob_up s =
      prob_up_of (Spec.recent_return (Price.close base) (Price.close latest))
                 rsi_14 momentum_3d /\
    StockFullSummary.expected_return s =
      Spec.recent_return (Price.close base) (Price.close latest) * 100.0 /\
    StockFullSummary.rsi_14 s = rsi_14 /\
    StockFullSummary.momentum_3d s = momentum_3d /\
    StockFullSummary.model_version s = "dummy_v1"%string.
Proof.
  intros Hh Hlen.
  destruct (index_last_two (sorted_by_date prices) horizon_days)
    as (latest & base & Hlatest & Hbase);
    [lia | rewrite len_sorted_by_date; exact Hlen |].
  destruct (calc_sma_total (map Price.close (sorted_by_date prices)) 5)
    as [ma_5 Hma5]; [lia|].
  destruct (calc_sma_total (map Price.close (sorted_by_date prices)) 20)
    as [ma_20 Hma20]; [lia|].
  destruct (calc_rsi_total (map Price.close (sorted_by_date prices)) 14)
    as [rsi_14 Hrsi]; [lia|].
  destruct (calc_momentum_total (map Price.close (sorted_by_date prices)) 3)
    as [momentum_3d Hmom]; [lia|].
  exists latest, base, rsi_14, momentum_3d.
  eexists.
  repeat (split; [assumption|]).
  unfold get_stock_full_summary.
  rewrite (proj2 (Z.ltb_ge _ _) Hlen).
  cbv zeta. rewrite Hlatest. simpl bind.
  rewrite Hma5. simpl bind. rewrite Hma20. simpl bind.
  rewrite Hrsi. simpl bind. rewrite Hmom. simpl bind.
  rewrite Hbase. simpl bind.
  rewrite recent_return_run. simpl bind.
  split; [reflexivity|]. simpl. auto.
Qed.

(** *** The rule and the clamp *)

Lemma max_Qmax (a b : Q) : max a b == Qmax a b.
Proof.
  unfold max. destruct (ltb a b) eqn:E.
  - apply ltb_true in E. rewrite Q.max_r by lra. reflexivity.
  - apply ltb_false in E. rewrite Q.max_l by exact E. reflexivity.
Qed.

Lemma min_Qmin (a b : Q) : min a b == Qmin a b.
Proof.
  unfold min. destruct (ltb b a) eqn:E.
  - apply ltb_true in E. rewrite Q.min_r by lra. reflexivity.
  - apply ltb_false in E. rewrite Q.min_l by exact E. reflexivity.
Qed.

Lemma compare_ltb (a b : Q) :
  (a ?= b) = if ltb a b then Lt else if ltb b a then Gt else Eq.
Proof.
  destruct (ltb a b) eqn:E1.
  - apply ltb_true in E1. now apply Qlt_alt.
  - destruct (ltb b a) eqn:E2.
    + apply ltb_true in E2. now apply Qgt_alt.
    + apply ltb_false in E1. apply ltb_false in E2.
      apply Qeq_alt. lra.
Qed.

Ltac ltb_cases :=
  repeat match goal with
         | |- context [ltb ?a ?b] =>
             let E := fresh "E" in
             destruct (ltb a b) eqn:E;
             [apply ltb_true in E | apply ltb_false in E]
         end.

Lemma rsi_step (p r : Q) :
  (if ltb r 35 then p + 0.05 else if ltb 70 r then p - 0.05 else p) ==
  p + Spec.rsi_adjustment (Some r).
Proof.
  unfold Spec.rsi_adjustment. rewrite !compare_ltb.
  ltb_cases; lra.
Qed.

Lemma momentum_step (p m : Q) :
  (if ltb 0 m then p + 0.03 else if ltb m 0 then p - 0.03 else p) ==
  p + Spec.momentum_adjustment (Some m).
Proof.
  unfold Spec.momentum_adjustment. rewrite !compare_ltb.
  ltb_cases; lra.
Qed.

Lemma raw_prob_up_spec (recent_return : Q) (rsi_14 mom_3d : option Q) :
  raw_prob_up recent_return rsi_14 mom_3d ==
  0.5 + Spec.clamp (recent_return * 2) (-0.15) 0.15
  + Spec.rsi_adjustment rsi_14 + Spec.momentum_adjustment mom_3d.
Proof.
  unfold raw_prob_up, Spec.clamp. cbv zeta.
  assert (Hfirst : 0.5 + max (-0.15) (min 0.15 (recent_return * 2)) ==
                   0.5 + Qmax (-0.15) (Qmin 0.15 (recent_return * 2))).
  { rewrite max_Qmax.
    apply Qplus_comp; [reflexivity|].
    apply Q.max_compat; [reflexivity|]. apply min_Qmin. }
  destruct rsi_14 as [r|]; destruct mom_3d as [m|].
  - rewrite momentum_step. apply Qplus_comp; [|reflexivity].
    rewrite rsi_step. apply Qplus_comp; [exact Hfirst | reflexivity].
  - rewrite rsi_step. simpl Spec.momentum_adjustment.
    rewrite Hfirst. ring.
  - rewrite momentum_step. simpl Spec.rsi_adjustment.
    rewrite Hfirst. ring.
  - simpl Spec.rsi_adjustment. simpl Spec.momentum_adjustment.
    rewrite Hfirst. ring.
Qed.

Lemma prob_up_of_spec (recent_return : Q) (rsi_14 mom_3d : option Q) :
  prob_up_of recent_return rsi_14 mom_3d ==
  Spec.prob_up recent_return rsi_14 mom_3d.
Proof.
  unfold prob_up_of, Spec.prob_up. unfold Spec.clamp at 1.
  rewrite max_Qmax, min_Qmin.
  apply Q.max_compat; [reflexivity|].
  apply Q.min_compat; [reflexivity|].
  apply raw_prob_up_spec.
Qed.

Lemma clamp_bounds (raw : Q) :
  0.05 <= max 0.05 (min 0.95 raw) /\ max 0.05 (min 0.95 raw) <= 0.95.
Proof.
  unfold max, min. ltb_cases; lra.
Qed.

Lemma prob_up_of_clamped (recent_return : Q) (rsi_14 mom_3d : option Q) :
  0.05 <= prob_up_of recent_return rsi_14 mom_3d /\
  prob_up_of recent_return rsi_14 mom_3d <= 0.95.
Proof. unfold prob_up_of. apply clamp_bounds. Qed.

(** C1: on a series sorted oldest-first with at least [horizon_days+1]
    points and [horizon_days >= 1], [predict_dummy] returns; its recent
    return is 0.0 when the close at position [-(horizon_days+1)] is not
    positive and [(latest_close - base)/base] otherwise; [prob_up] is the
    clamped sum of 0.5, the clamped doubled return, the RSI(14)
    adjustment and the Momentum(3) adjustment; [expected_return] is the
    recent return times 100.0; and [model_version] is "dummy_v1". *)
Theorem predict_dummy_rule (stock : Stock.t) (prices : list Price.t)
    (stock_id horizon_days : Z) :
  oldest_first prices ->
  (1 <= horizon_days)%Z -> (horizon_days + 1 <= len prices)%Z ->
  exists r base latest rsi momentum,
    predict_dummy (Some stock) prices stock_id horizon_days = Ok r /\
    index prices (- (horizon_days + 1)) = Ok base /\
    index prices (-1) = Ok latest /\
    calc_rsi (map Price.close prices) 14 = Ok rsi /\
    calc_momentum (map Price.close prices) 3 = Ok momentum /\
    PredictionSummary.prob_up r ==
      Spec.prob_up (Spec.recent_return (Price.close base) (Price.close latest))
                   rsi momentum /\
    PredictionSummary.expected_return r =
      Spec.recent_return (Price.close base) (Price.close latest) * 100.0 /\
    PredictionSummary.model_version r = "dummy_v1"%string.
Proof.
  intros Hsorted Hh Hlen.
  destruct (predict_dummy_run stock prices stock_id horizon_days Hh Hlen)
    as (latest & base & rsi & mom & Hlatest & Hbase & Hrsi & Hmom & Hrun).
  rewrite (sorted_by_date_fixed prices Hsorted) in *.
  eexists. exists base, latest, rsi, mom.
  split; [exact Hrun|].
  repeat (split; [assumption|]).
  simpl. split; [apply prob_up_of_spec|]. split; reflexivity.
Qed.

Lemma predict_dummy_rule_witness :
  oldest_first (bars spec_closes) /\
  (1 <= 3)%Z /\ (3 + 1 <= len (bars spec_closes))%Z /\
  exists r,
    predict_dummy (Some a_stock) (bars spec_closes) 1 3 = Ok r /\
    PredictionSummary.model_version r = "dummy_v1"%string.
Proof.
  assert (Hsorted : oldest_first (bars spec_closes)).
  { unfold oldest_first. repeat constructor; discriminate. }
  split; [exact Hsorted|]. split; [lia|]. split; [vm_compute; discriminate|].
  destruct (predict_dummy_rule a_stock (bars spec_closes) 1 3 Hsorted)
    as (r & base & latest & rsi & mom & Hr & _ & _ & _ & _ & _ & _ & Hv).
  - lia.
  - vm_compute. discriminate.
  - exists r. split; assumption.
Defined.

(** C6: with [horizon_days >= 1] and at least [horizon_days+1] points,
    both endpoints return, and the [prob_up] they return lies in
    [0.05, 0.95], whatever the series and whether or not RSI and
    momentum are available. *)
Theorem prob_up_within_bounds (stock : Stock.t) (prices : list Price.t)
    (stock_id horizon_days : Z) :
  (1 <= horizon_days)%Z -> (horizon_days + 1 <= len prices)%Z ->
  (exists r,
     predict_dummy (Some stock) prices stock_id horizon_days = Ok r /\
     0.05 <= PredictionSummary.prob_up r /\
     PredictionSummary.prob_up r <= 0.95) /\
  (exists s,
     get_stock_full_summary (Some stock) prices stock_id horizon_days = Ok s /\
     0.05 <= StockFullSummary.prob_up s /\
     StockFullSummary.prob_up s <= 0.95).
Proof.
  intros Hh Hlen. split.
  - destruct (predict_dummy_run stock prices stock_id horizon_days Hh Hlen)
      as (latest & base & rsi & mom & _ & _ & _ & _ & Hrun).
    eexists. split; [exact Hrun|]. simpl. apply prob_up_of_clamped.
  - destruct (get_stock_full_summary_run stock prices stock_id horizon_days)
      as (latest & base & rsi & mom & s & _ & _ & _ & _ & Hrun & Hp & _);
      [lia | exact Hlen |].
    exists s. split; [exact Hrun|]. rewrite Hp. apply prob_up_of_clamped.
Qed.

Lemma prob_up_within_bounds_witness :
  (1 <= 1)%Z /\ (1 + 1 <= len (bars jump_closes))%Z /\
  exists r,
    predict_dummy (Some a_stock) (bars jump_closes) 1 1 = Ok r /\
    0.05 <= PredictionSummary.prob_up r /\
    PredictionSummary.prob_up r <= 0.95.
Proof.
  split; [lia|]. split; [vm_compute; discriminate|].
  apply (prob_up_within_bounds a_stock (bars jump_closes) 1 1); [lia|].
  vm_compute. discriminate.
Defined.

(** *** One rule, written twice *)

Lemma predict_dummy_returns (stock : option Stock.t) (prices : list Price.t)
    (stock_id horizon_days : Z) (r : PredictionSummary.t) :
  predict_dummy stock prices stock_id horizon_days = Ok r ->
  exists st, stock = Some st /\
             (1 <= horizon_days)%Z /\ (horizon_days + 1 <= len prices)%Z.
Proof.
  unfold predict_dummy. destruct stock as [st|]; [|discriminate].
  destruct (horizon_days <? 1)%Z eqn:E1; [discriminate|].
  destruct (len prices <? horizon_days + 1)%Z eqn:E2; [discriminate|].
  intros _. exists st.
  apply Z.ltb_ge in E1. apply Z.ltb_ge in E2. auto.
Qed.

Lemma endpoints_agree (stock : Stock.t) (prices : list Price.t)
    (stock_id horizon_days : Z) :
  (1 <= horizon_days)%Z -> (horizon_days + 1 <= len prices)%Z ->
  exists r s,
    predict_dummy (Some stock) prices stock_id horizon_days = Ok r /\
    get_stock_full_summary (Some stock) prices stock_id horizon_days = Ok s /\
    StockFullSummary.prob_up s = PredictionSummary.prob_up r /\
    StockFullSummary.expected_return s = PredictionSummary.expected_return r.
Proof.
  intros Hh Hlen.
  destruct (predict_dummy_run stock prices stock_id horizon_days Hh Hlen)
    as (latest & base & rsi & mom & Hlatest & Hbase & Hrsi & Hmom & Hrun).
  destruct (get_stock_full_summary_run stock prices stock_id horizon_days)
    as (latest' & base' & rsi' & mom' & s
        & Hlatest' & Hbase' & Hrsi' & Hmom' & Hrun' & Hp & He & _);
    [lia | exact Hlen |].
  rewrite Hlatest in Hlatest'. injection Hlatest' as <-.
  rewrite Hbase in Hbase'. injection Hbase' as <-.
  rewrite Hrsi in Hrsi'. injection Hrsi' as <-.
  rewrite Hmom in Hmom'. injection Hmom' as <-.
  eexists. exists s.
  split; [exact Hrun|]. split; [exact Hrun'|].
  simpl. split; assumption.
Qed.

(** C3: the rule of the standalone endpoint and the rule inside the
    combined summary agree.  Whenever [predict_dummy] returns a
    prediction, [get_stock_full_summary] returns on the same stock,
    series and horizon with the same [prob_up] and [expected_return];
    and for [horizon_days >= 1] the two endpoints have the same outcome
    altogether: the same pair of values, or the same exception. *)
Theorem heuristic_written_twice (stock : option Stock.t) (prices : list Price.t)
    (stock_id horizon_days : Z) :
  (forall r,
     predict_dummy stock prices stock_id horizon_days = Ok r ->
     exists s,
       get_stock_full_summary stock prices stock_id horizon_days = Ok s /\
       StockFullSummary.prob_up s = PredictionSummary.prob_up r /\
       StockFullSummary.expected_return s = PredictionSummary.expected_return r) /\
  ((1 <= horizon_days)%Z ->
   observed prediction_view (predict_dummy stock prices stock_id horizon_days) =
   observed summary_view (get_stock_full_summary stock prices stock_id horizon_days)).
Proof.
  split.
  - intros r Hr.
    destruct (predict_dummy_returns _ _ _ _ _ Hr) as (st & -> & Hh & Hlen).
    destruct (endpoints_agree st prices stock_id horizon_days Hh Hlen)
      as (r' & s & Hr' & Hs & Hp & He).
    rewrite Hr in Hr'. injection Hr' as <-.
    exists s. auto.
  - intro Hh. destruct stock as [st|]; [|reflexivity].
    destruct (Z.lt_ge_cases (len prices) (horizon_days + 1)) as [Hlt|Hge].
    + unfold predict_dummy, get_stock_full_summary.
      rewrite (proj2 (Z.ltb_ge _ _) Hh), (proj2 (Z.ltb_lt _ _) Hlt).
      reflexivity.
    + destruct (endpoints_agree st prices stock_id horizon_days Hh Hge)
        as (r & s & Hr & Hs & Hp & He).
      rewrite Hr, Hs. unfold observed, prediction_view, summary_view.
      now rewrite Hp, He.
Qed.

Lemma heuristic_written_twice_witness :
  (1 <= 3)%Z /\
  observed prediction_view
    (predict_dummy (Some a_stock) (rev (bars spec_closes)) 1 3) =
  observed summary_view
    (get_stock_full_summary (Some a_stock) (rev (bars spec_closes)) 1 3) /\
  exists r s,
    predict_dummy (Some a_stock) (rev (bars spec_closes)) 1 3 = Ok r /\
    get_stock_full_summary (Some a_stock) (rev (bars spec_closes)) 1 3 = Ok s /\
    StockFullSummary.prob_up s = PredictionSummary.prob_up r /\
    StockFullSummary.expected_return s = PredictionSummary.expected_return r.
Proof.
  destruct (heuristic_written_twice
              (Some a_stock) (rev (bars spec_closes)) 1 3) as [Hret Hobs].
  split; [lia|]. split; [apply Hobs; lia|].
  edestruct Hret as (s & Hs & Hp & He); [vm_compute; reflexivity|].
  eexists. exists s. split; [vm_compute; reflexivity|]. auto.
Defined.

(** Below the horizons [predict_dummy] accepts the endpoints part ways:
    [get_stock_full_summary] does not check [horizon_days] and answers
    where [predict_dummy] raises. *)
Lemma summary_without_horizon_check :
  predict_dummy (Some a_stock) (bars spec_closes) 1 0 = Raise (HTTPException 400) /\
  exists s, get_stock_full_summary (Some a_stock) (bars spec_closes) 1 0 = Ok s.
Proof.
  split; [reflexivity|]. eexists. vm_compute. reflexivity.
Qed.

(** * Further properties of the code *)

(** ** Indexing *)

Lemma index_minus_one {A : Type} (l : list A) (d : A) :
  l <> [] -> index l (-1) = Ok (nth (List.length l - 1) l d).
Proof.
  intro Hne.
  apply (index_from_end l 1 d).
  destruct l; [contradiction|]. unfold len. simpl List.length. lia.
Qed.

Lemma index_empty {A : Type} (i : Z) : index (@nil A) i = Raise IndexError.
Proof.
  unfold index. change (len (@nil A)) with 0%Z.
  destruct (i <? 0)%Z eqn:E.
  - apply Z.ltb_lt in E.
    replace ((i + 0 <? 0) || (0 <=? i + 0))%Z with true; [reflexivity|].
    symmetry. apply orb_true_iff. left. apply Z.ltb_lt. lia.
  - apply Z.ltb_ge in E.
    replace ((i <? 0) || (0 <=? i))%Z with true; [reflexivity|].
    symmetry. apply orb_true_iff. right. apply Z.leb_le. lia.
Qed.

(** A non-negative index reads its position when it is below the length
    and raises otherwise. *)
Lemma index_nonneg {A : Type} (l : list A) (k : Z) (d : A) :
  (0 <= k)%Z ->
  index l k = if (k <? len l)%Z then Ok (nth (Z.to_nat k) l d)
              else Raise IndexError.
Proof.
  intro Hk. unfold index.
  rewrite (proj2 (Z.ltb_ge _ _) Hk).
  destruct (k <? len l)%Z eqn:E.
  - apply Z.ltb_lt in E.
    replace ((k <? 0) || (len l <=? k))%Z with false.
    + destruct (nth_error l (Z.to_nat k)) eqn:En.
      * now rewrite (nth_error_nth _ _ d En).
      * apply nth_error_None in En. unfold len in E. lia.
    + symmetry. apply orb_false_iff.
      split; [apply Z.ltb_ge | apply Z.leb_gt]; lia.
  - apply Z.ltb_ge in E.
    replace ((k <? 0) || (len l <=? k))%Z with true; [reflexivity|].
    symmetry. apply orb_true_iff. right. apply Z.leb_le. lia.
Qed.

Lemma index_map {A B : Type} (f : A -> B) (l : list A) (i : Z) :
  index (map f l) i =
  match index l i with
  | Ok a => Ok (f a)
  | Raise e => Raise e
  end.
Proof.
  unfold index, len. rewrite length_map.
  destruct ((_ <? 0) || _)%Z; [reflexivity|].
  rewrite nth_error_map.
  destruct (nth_error l _); reflexivity.
Qed.

(** ** [sorted(prices, key=lambda p: p.date)] *)

Lemma insert_by_date_permutation (p : Price.t) (l : list Price.t) :
  Permutation (insert_by_date p l) (p :: l).
Proof.
  induction l as [|q l IH]; simpl; [reflexivity|].
  destruct (Price.date p <=? Price.date q)%Z; [reflexivity|].
  rewrite IH. apply perm_swap.
Qed.

Lemma sorted_by_date_permutation (prices : list Price.t) :
  Permutation (sorted_by_date prices) prices.
Proof.
  induction prices as [|p l IH]; simpl; [reflexivity|].
  rewrite insert_by_date_permutation. now constructor.
Qed.

Lemma insert_by_date_sorted (p : Price.t) (l : list Price.t) :
  oldest_first l -> oldest_first (insert_by_date p l).
Proof.
  unfold oldest_first.
  induction 1 as [|q l Hl IH Hhd]; simpl.
  - repeat constructor.
  - destruct (Price.date p <=? Price.date q)%Z eqn:E.
    + apply Z.leb_le in E. repeat constructor; assumption.
    + apply Z.leb_gt in E. constructor; [exact IH|].
      destruct Hhd as [|r l' Hqr]; simpl.
      * constructor. lia.
      * destruct (Price.date p <=? Price.date r)%Z; constructor; lia.
Qed.

Lemma sorted_by_date_sorted (prices : list Price.t) :
  oldest_first (sorted_by_date prices).
Proof.
  induction prices as [|p l IH]; simpl.
  - constructor.
  - apply insert_by_date_sorted, IH.
Qed.

Lemma oldest_first_strong (prices : list Price.t) :
  oldest_first prices ->
  StronglySorted (fun p q => (Price.date p <= Price.date q)%Z) prices.
Proof.
  apply Sorted_StronglySorted. intros a b c Hab Hbc. lia.
Qed.

Lemma nth_last_cons {A : Type} (a : A) (l : list A) (d : A) :
  l <> [] ->
  nth (List.length (a :: l) - 1) (a :: l) d = nth (List.length l - 1) l d.
Proof.
  destruct l as [|b l]; [contradiction|]. intros _.
  simpl. now rewrite Nat.sub_0_r.
Qed.

(** The last entry of a sorted series is a most recent one. *)
Lemma sorted_last_max (l : list Price.t) (d : Price.t) :
  StronglySorted (fun p q => (Price.date p <= Price.date q)%Z) l ->
  l <> [] ->
  In (nth (List.length l - 1) l d) l /\
  forall p, In p l ->
            (Price.date p <= Price.date (nth (List.length l - 1) l d))%Z.
Proof.
  induction 1 as [|p0 l Hs IH Hall]; intro Hne; [contradiction|].
  destruct l as [|q l].
  - simpl. split; [now left|]. intros p [<-|[]]. lia.
  - rewrite nth_last_cons by discriminate.
    destruct (IH ltac:(discriminate)) as [Hin Hmax].
    split; [now right|].
    intros p [<-|Hp]; [|now apply Hmax].
    rewrite Forall_forall in Hall. apply Hall. exact Hin.
Qed.

Lemma last_of_sorted (prices : list Price.t) (latest : Price.t) :
  oldest_first prices -> index prices (-1) = Ok latest ->
  In latest prices /\
  forall p, In p prices -> (Price.date p <= Price.date latest)%Z.
Proof.
  intros Hs Hidx. apply oldest_first_strong in Hs.
  assert (Hne : prices <> []).
  { intros ->. rewrite index_empty in Hidx. discriminate. }
  rewrite (index_minus_one prices latest Hne) in Hidx.
  assert (E : nth (List.length prices - 1) prices latest = latest) by congruence.
  rewrite <- E. apply sorted_last_max; assumption.
Qed.

Lemma latest_of_series (prices : list Price.t) (latest : Price.t) :
  index (sorted_by_date prices) (-1) = Ok latest ->
  In latest prices /\
  forall p, In p prices -> (Price.date p <= Price.date latest)%Z.
Proof.
  intro Hidx.
  destruct (last_of_sorted _ _ (sorted_by_date_sorted prices) Hidx) as [Hin Hmax].
  pose proof (sorted_by_date_permutation prices) as Hperm.
  split.
  - now apply (Permutation_in _ Hperm).
  - intros p Hp. apply Hmax.
    now apply (Permutation_in _ (Permutation_sym Hperm)).
Qed.

(** ** The indicator endpoint *)

Lemma sorted_by_date_nonempty (prices : list Price.t) :
  prices <> [] -> sorted_by_date prices <> [].
Proof.
  intros Hne E. apply Hne.
  apply Permutation_nil. rewrite <- E.
  apply sorted_by_date_permutation.
Qed.

Lemma len_closes (prices : list Price.t) :
  len (map Price.close (sorted_by_date prices)) = len prices.
Proof.
  unfold len. rewrite length_map. apply len_sorted_by_date.
Qed.

Lemma get_indicators_run (stock : Stock.t) (prices : list Price.t) (stock_id : Z) :
  prices <> [] ->
  exists latest ma_5 ma_20 rsi_14 momentum_3d,
    index (sorted_by_date prices) (-1) = Ok latest /\
    calc_sma (map Price.close (sorted_by_date prices)) 5 = Ok ma_5 /\
    calc_sma (map Price.close (sorted_by_date prices)) 20 = Ok ma_20 /\
    calc_rsi (map Price.close (sorted_by_date prices)) 14 = Ok rsi_14 /\
    calc_momentum (map Price.close (sorted_by_date prices)) 3 = Ok momentum_3d /\
    get_indicators (Some stock) prices stock_id =
    Ok {| IndicatorSummary.stock_id := stock_id;
          IndicatorSummary.days := len prices;
          IndicatorSummary.latest_date := Some (Price.date latest);
          IndicatorSummary.latest_close := Some (Price.close latest);
          IndicatorSummary.ma_5 := ma_5;
          IndicatorSummary.ma_20 := ma_20;
          IndicatorSummary.rsi_14 := rsi_14;
          IndicatorSummary.momentum_3d := momentum_3d |}.
Proof.
  intro Hne.
  pose proof (index_minus_one (sorted_by_date prices) (bar 0 0)
                (sorted_by_date_nonempty prices Hne)) as Hlatest.
  pose proof (len_closes prices) as Hlen.
  destruct prices as [|p0 rest]; [contradiction|].
  unfold get_indicators. cbv beta iota zeta.
  remember (sorted_by_date (p0 :: rest)) as ps eqn:Eps.
  destruct (calc_sma_total (map Price.close ps) 5) as [ma_5 Hma5]; [lia|].
  destruct (calc_sma_total (map Price.close ps) 20) as [ma_20 Hma20]; [lia|].
  destruct (calc_rsi_total (map Price.close ps) 14) as [rsi_14 Hrsi]; [lia|].
  destruct (calc_momentum_total (map Price.close ps) 3)
    as [momentum_3d Hmom]; [lia|].
  eexists. exists ma_5, ma_20, rsi_14, momentum_3d.
  split; [exact Hlatest|]. repeat (split; [assumption|]).
  rewrite Hlatest. simpl bind.
  rewrite Hma5. simpl bind. rewrite Hma20. simpl bind.
  rewrite Hrsi. simpl bind. rewrite Hmom. simpl bind.
  now rewrite Hlen.
Qed.

(** X1: [get_indicators] answers 404 exactly when the stock is unknown or
    has no price; it raises nothing else; and with a known stock and at
    least one price it returns, reporting the requested stock id and the
    number of prices it was given as [days]. *)
Theorem get_indicators_outcome (stock : option Stock.t) (prices : list Price.t)
    (stock_id : Z) :
  (get_indicators stock prices stock_id = Raise (HTTPException 404) <->
   stock = None \/ prices = []) /\
  (forall e, get_indicators stock prices stock_id = Raise e ->
             e = HTTPException 404) /\
  (stock <> None -> prices <> [] ->
   exists r,
     get_indicators stock prices stock_id = Ok r /\
     IndicatorSummary.stock_id r = stock_id /\
     IndicatorSummary.days r = len prices).
Proof.
  destruct stock as [st|].
  - destruct prices as [|p0 rest].
    + split; [|split].
      * split; [now right | reflexivity].
      * intros e H. now injection H as <-.
      * intros _ H. contradiction.
    + destruct (get_indicators_run st (p0 :: rest) stock_id ltac:(discriminate))
        as (latest & ma_5 & ma_20 & rsi & mom & _ & _ & _ & _ & _ & Hrun).
      rewrite Hrun. split; [|split].
      * split; [discriminate | intros [H|H]; discriminate].
      * intros e H. discriminate.
      * intros _ _. eexists. split; [reflexivity|]. split; reflexivity.
  - split; [|split].
    + split; [now left | reflexivity].
    + intros e H. now injection H as <-.
    + intros H. contradiction.
Qed.

Lemma get_indicators_outcome_witness :
  exists r,
    get_indicators (Some a_stock) (bars jump_closes) 1 = Ok r /\
    IndicatorSummary.stock_id r = 1%Z /\
    IndicatorSummary.days r = len (bars jump_closes).
Proof.
  apply (proj2 (proj2 (get_indicators_outcome (Some a_stock) (bars jump_closes) 1)));
    discriminate.
Defined.

(** X2: in the answer of [get_indicators], the 5-day average is missing
    exactly below 5 prices, the 20-day average exactly below 20, the RSI
    exactly below 15, and the 3-day momentum whenever there are fewer
    than 4 prices. *)
Theorem get_indicators_availability (stock : option Stock.t)
    (prices : list Price.t) (stock_id : Z) (r : IndicatorSummary.t) :
  get_indicators stock prices stock_id = Ok r ->
  (IndicatorSummary.ma_5 r = None <-> (len prices < 5)%Z) /\
  (IndicatorSummary.ma_20 r = None <-> (len prices < 20)%Z) /\
  (IndicatorSummary.rsi_14 r = None <-> (len prices < 15)%Z) /\
  ((len prices < 4)%Z -> IndicatorSummary.momentum_3d r = None).
Proof.
  intro Hr.
  destruct stock as [st|]; [|discriminate].
  destruct prices as [|p0 rest]; [discriminate|].
  destruct (get_indicators_run st (p0 :: rest) stock_id ltac:(discriminate))
    as (latest & ma_5 & ma_20 & rsi & mom & _ & H5 & H20 & Hrsi & Hmom & Hrun).
  rewrite Hrun in Hr. injection Hr as <-. simpl.
  set (closes := map Price.close (sorted_by_date (p0 :: rest))) in *.
  assert (Hlen : len closes = len (p0 :: rest)) by apply len_closes.
  rewrite <- Hlen.
  split; [|split; [|split]].
  - destruct (Z.lt_ge_cases (len closes) 5) as [H|H].
    + rewrite calc_sma_short in H5 by exact H. injection H5 as <-. tauto.
    + rewrite calc_sma_long in H5 by lia. injection H5 as <-.
      split; [discriminate | lia].
  - destruct (Z.lt_ge_cases (len closes) 20) as [H|H].
    + rewrite calc_sma_short in H20 by exact H. injection H20 as <-. tauto.
    + rewrite calc_sma_long in H20 by lia. injection H20 as <-.
      split; [discriminate | lia].
  - destruct (Z.lt_ge_cases (len closes) (14 + 1)) as [H|H].
    + rewrite calc_rsi_short in Hrsi by exact H. injection Hrsi as <-.
      split; [lia | reflexivity].
    + rewrite calc_rsi_long in Hrsi by lia. injection Hrsi as <-.
      split; [discriminate | lia].
  - intro H. rewrite calc_momentum_short in Hmom by lia.
    now injection Hmom as <-.
Qed.

Lemma get_indicators_availability_witness :
  exists r,
    get_indicators (Some a_stock) (bars spec_closes) 1 = Ok r /\
    (IndicatorSummary.ma_20 r = None <-> (len (bars spec_closes) < 20)%Z) /\
    (IndicatorSummary.rsi_14 r = None <-> (len (bars spec_closes) < 15)%Z).
Proof.
  eexists. split; [vm_compute; reflexivity|].
  edestruct (get_indicators_availability (Some a_stock) (bars spec_closes) 1)
    as (_ & H20 & Hrsi & _); [vm_compute; reflexivity|].
  split; [exact H20 | exact Hrsi].
Defined.

(** ** Outcomes of the two prediction endpoints *)

Lemma get_stock_full_summary_steps (stock : Stock.t) (prices : list Price.t)
    (stock_id horizon_days : Z) :
  (horizon_days + 1 <= len prices)%Z ->
  exists ma_5 ma_20 rsi_14 momentum_3d,
    calc_sma (map Price.close (sorted_by_date prices)) 5 = Ok ma_5 /\
    calc_sma (map Price.close (sorted_by_date prices)) 20 = Ok ma_20 /\
    calc_rsi (map Price.close (sorted_by_date prices)) 14 = Ok rsi_14 /\
    calc_momentum (map Price.close (sorted_by_date prices)) 3 = Ok momentum_3d /\
    get_stock_full_summary (Some stock) prices stock_id horizon_days =
    match index (sorted_by_date prices) (-1) with
    | Raise e => Raise e
    | Ok latest =>
        match index (sorted_by_date prices) (- (horizon_days + 1)) with
        | Raise e => Raise e
        | Ok base =>
            Ok {| StockFullSummary.stock_id := Stock.id stock;
                  StockFullSummary.symbol := Stock.symbol stock;
                  StockFullSummary.name := Stock.name stock;
                  StockFullSummary.market := Stock.market stock;
                  StockFullSummary.sector := Stock.sector stock;
                  StockFullSummary.currency := Stock.currency stock;
                  StockFullSummary.latest_date := Some (Price.date latest);
                  StockFullSummary.latest_close := Some (Price.close latest);
                  StockFullSummary.ma_5 := ma_5;
                  StockFullSummary.ma_20 := ma_20;
                  StockFullSummary.rsi_14 := rsi_14;
                  StockFullSummary.momentum_3d := momentum_3d;
                  StockFullSummary.horizon_days := horizon_days;
                  StockFullSummary.prob_up :=
                    prob_up_of
                      (Spec.recent_return (Price.close base) (Price.close latest))
                      rsi_14 momentum_3d;
                  StockFullSummary.expected_return :=
                    Spec.recent_return (Price.close base) (Price.close latest)
                    * 100.0;
                  StockFullSummary.model_version := "dummy_v1" |}
        end
    end.
Proof.
  intro Hlen.
  destruct (calc_sma_total (map Price.close (sorted_by_date prices)) 5)
    as [ma_5 Hma5]; [lia|].
  destruct (calc_sma_total (map Price.close (sorted_by_date prices)) 20)
    as [ma_20 Hma20]; [lia|].
  destruct (calc_rsi_total (map Price.close (sorted_by_date prices)) 14)
    as [rsi_14 Hrsi]; [lia|].
  destruct (calc_momentum_total (map Price.close (sorted_by_date prices)) 3)
    as [momentum_3d Hmom]; [lia|].
  exists ma_5, ma_20, rsi_14, momentum_3d.
  repeat (split; [assumption|]).
  unfold get_stock_full_summary.
  rewrite (proj2 (Z.ltb_ge _ _) Hlen). cbv zeta.
  destruct (index (sorted_by_date prices) (-1)) as [latest|e]; [|reflexivity].
  simpl bind.
  rewrite Hma5. simpl bind. rewrite Hma20. simpl bind.
  rewrite Hrsi. simpl bind. rewrite Hmom. simpl bind.
  destruct (index (sorted_by_date prices) (- (horizon_days + 1))) as [base|e];
    [|reflexivity].
  simpl bind. rewrite recent_return_run. reflexivity.
Qed.

(** The index reads of the endpoints, by region of [horizon_days]. *)
Lemma index_base_backward (prices : list Price.t) (horizon_days : Z) :
  (0 <= horizon_days)%Z -> (horizon_days + 1 <= len prices)%Z ->
  exists base, index (sorted_by_date prices) (- (horizon_days + 1)) = Ok base.
Proof.
  intros Hh Hlen.
  destruct (index_last_two (sorted_by_date prices) horizon_days Hh)
    as (_ & base & _ & Hbase); [now rewrite len_sorted_by_date|].
  eauto.
Qed.

Lemma index_base_forward (prices : list Price.t) (horizon_days : Z) :
  (horizon_days <= -1)%Z ->
  index (sorted_by_date prices) (- (horizon_days + 1)) =
  if (- (horizon_days + 1) <? len prices)%Z
  then Ok (nth (Z.to_nat (- (horizon_days + 1))) (sorted_by_date prices) (bar 0 0))
  else Raise IndexError.
Proof.
  intro Hh. rewrite <- len_sorted_by_date.
  apply index_nonneg. lia.
Qed.

Lemma index_latest (prices : list Price.t) :
  prices <> [] -> exists latest, index (sorted_by_date prices) (-1) = Ok latest.
Proof.
  intro Hne. eexists.
  apply (index_minus_one _ (bar 0 0)), sorted_by_date_nonempty, Hne.
Qed.

Lemma len_zero_nil {A : Type} (l : list A) : (len l <= 0)%Z -> l = [].
Proof.
  destruct l; [reflexivity|]. unfold len. simpl. lia.
Qed.

Lemma len_pos_nonempty {A : Type} (l : list A) : (0 < len l)%Z -> l <> [].
Proof. intros H ->. unfold len in H. simpl in H. lia. Qed.

Lemma get_stock_full_summary_regions (stock : Stock.t) (prices : list Price.t)
    (stock_id horizon_days : Z) :
  ((len prices < horizon_days + 1)%Z /\
   get_stock_full_summary (Some stock) prices stock_id horizon_days =
   Raise (HTTPException 400)) \/
  ((horizon_days + 1 <= len prices)%Z /\
   (horizon_days <= -1)%Z /\ (len prices <= - (horizon_days + 1))%Z /\
   get_stock_full_summary (Some stock) prices stock_id horizon_days =
   Raise IndexError) \/
  ((horizon_days + 1 <= len prices)%Z /\
   ((0 <= horizon_days)%Z \/ (- (horizon_days + 1) < len prices)%Z) /\
   exists s,
     get_stock_full_summary (Some stock) prices stock_id horizon_days = Ok s).
Proof.
  destruct (Z.lt_ge_cases (len prices) (horizon_days + 1)) as [Hshort|Hlen].
  { left. split; [exact Hshort|].
    unfold get_stock_full_summary.
    now rewrite (proj2 (Z.ltb_lt _ _) Hshort). }
  right.
  destruct (get_stock_full_summary_steps stock prices stock_id horizon_days Hlen)
    as (ma_5 & ma_20 & rsi & mom & _ & _ & _ & _ & Hrun).
  rewrite Hrun.
  destruct (Z.lt_ge_cases horizon_days 0) as [Hneg|Hnonneg].
  - rewrite index_base_forward by lia.
    destruct (- (horizon_days + 1) <? len prices)%Z eqn:E.
    + apply Z.ltb_lt in E. right.
      split; [exact Hlen|]. split; [now right|].
      destruct (index_latest prices) as [latest Hlatest];
        [apply len_pos_nonempty; lia|].
      rewrite Hlatest. eauto.
    + apply Z.ltb_ge in E. left.
      split; [exact Hlen|]. split; [lia|]. split; [exact E|].
      destruct (index (sorted_by_date prices) (-1)) as [latest|e] eqn:El;
        [reflexivity|].
      destruct (Z.le_gt_cases (len prices) 0) as [H0|H0].
      * rewrite (len_zero_nil prices H0) in El. simpl in El.
        rewrite index_empty in El. congruence.
      * destruct (index_latest prices (len_pos_nonempty prices H0)) as [l Hl].
        congruence.
  - right. split; [exact Hlen|]. split; [now left|].
    destruct (index_latest prices) as [latest Hlatest];
      [apply len_pos_nonempty; lia|].
    destruct (index_base_backward prices horizon_days Hnonneg Hlen) as [base Hbase].
    rewrite Hlatest, Hbase. eauto.
Qed.

Ltac settle_outcome :=
  repeat split; intros;
  repeat match goal with
         | H : _ /\ _ |- _ => destruct H
         | H : exists _, _ |- _ => destruct H
         | H : _ \/ _ |- _ => destruct H
         end;
  repeat split; intros;
  try congruence; try lia;
  try (left; congruence); try (right; congruence); eauto.

(** X6: the outcomes of [get_stock_full_summary], which does not check
    [horizon_days].  It answers 404 exactly for an unknown stock and 400
    exactly for a known stock with fewer than [horizon_days+1] prices; for
    a known stock it lets an [IndexError] escape exactly when
    [horizon_days <= -1] and there are at most [-(horizon_days+1)]
    prices; in every other case it returns. *)
Theorem get_stock_full_summary_outcome (stock : option Stock.t)
    (prices : list Price.t) (stock_id horizon_days : Z) :
  (get_stock_full_summary stock prices stock_id horizon_days =
   Raise (HTTPException 404) <-> stock = None) /\
  (get_stock_full_summary stock prices stock_id horizon_days =
   Raise (HTTPException 400) <->
   stock <> None /\ (len prices < horizon_days + 1)%Z) /\
  (get_stock_full_summary stock prices stock_id horizon_days =
   Raise IndexError <->
   stock <> None /\ (horizon_days <= -1)%Z /\
   (len prices <= - (horizon_days + 1))%Z) /\
  ((exists s, get_stock_full_summary stock prices stock_id horizon_days = Ok s) <->
   stock <> None /\ (horizon_days + 1 <= len prices)%Z /\
   ((0 <= horizon_days)%Z \/ (- (horizon_days + 1) < len prices)%Z)).
Proof.
  destruct stock as [st|].
  - pose proof (len_nonneg prices) as Hnn.
    destruct (get_stock_full_summary_regions st prices stock_id horizon_days)
      as [[H1 E]|[(H1 & H2 & H3 & E)|(H1 & H2 & s & E)]]; rewrite E;
      settle_outcome.
  - simpl. settle_outcome.
Qed.

(** X5: the outcomes of [predict_dummy].  It answers 404 exactly for an
    unknown stock, 400 exactly for a known stock with [horizon_days < 1]
    or fewer than [horizon_days+1] prices, and returns a prediction in
    every other case; no other exception escapes. *)
Theorem predict_dummy_outcome (stock : option Stock.t) (prices : list Price.t)
    (stock_id horizon_days : Z) :
  (predict_dummy stock prices stock_id horizon_days =
   Raise (HTTPException 404) <-> stock = None) /\
  (predict_dummy stock prices stock_id horizon_days =
   Raise (HTTPException 400) <->
   stock <> None /\
   ((horizon_days < 1)%Z \/ (len prices < horizon_days + 1)%Z)) /\
  ((exists r, predict_dummy stock prices stock_id horizon_days = Ok r) <->
   stock <> None /\ (1 <= horizon_days)%Z /\
   (horizon_days + 1 <= len prices)%Z) /\
  (forall e,
     predict_dummy stock prices stock_id horizon_days = Raise e ->
     e = HTTPException 404 \/ e = HTTPException 400).
Proof.
  destruct stock as [st|]; [|simpl; settle_outcome].
  destruct (Z.lt_ge_cases horizon_days 1) as [Hh|Hh].
  { assert (E : predict_dummy (Some st) prices stock_id horizon_days =
                Raise (HTTPException 400)).
    { unfold predict_dummy. now rewrite (proj2 (Z.ltb_lt _ _) Hh). }
    rewrite E. settle_outcome. }
  destruct (Z.lt_ge_cases (len prices) (horizon_days + 1)) as [Hlen|Hlen].
  { assert (E : predict_dummy (Some st) prices stock_id horizon_days =
                Raise (HTTPException 400)).
    { unfold predict_dummy.
      now rewrite (proj2 (Z.ltb_ge _ _) Hh), (proj2 (Z.ltb_lt _ _) Hlen). }
    rewrite E. settle_outcome. }
  destruct (predict_dummy_run st prices stock_id horizon_days Hh Hlen)
    as (latest & base & rsi & mom & _ & _ & _ & _ & E).
  rewrite E. settle_outcome.
Qed.

(** ** What the endpoints report *)

(** X8: the latest bar.  Each of the three endpoints, when it returns,
    reports as [latest_date] and [latest_close] the date and close of one
    of the prices it was given, and no price it was given has a later
    date. *)
Theorem latest_is_most_recent (stock : option Stock.t) (prices : list Price.t)
    (stock_id horizon_days : Z) :
  (forall r,
     get_indicators stock prices stock_id = Ok r ->
     exists latest,
       In latest prices /\
       IndicatorSummary.latest_date r = Some (Price.date latest) /\
       IndicatorSummary.latest_close r = Some (Price.close latest) /\
       forall p, In p prices -> (Price.date p <= Price.date latest)%Z) /\
  (forall r,
     predict_dummy stock prices stock_id horizon_days = Ok r ->
     exists latest,
       In latest prices /\
       PredictionSummary.latest_date r = Some (Price.date latest) /\
       PredictionSummary.latest_close r = Some (Price.close latest) /\
       forall p, In p prices -> (Price.date p <= Price.date latest)%Z) /\
  (forall s,
     get_stock_full_summary stock prices stock_id horizon_days = Ok s ->
     exists latest,
       In latest prices /\
       StockFullSummary.latest_date s = Some (Price.date latest) /\
       StockFullSummary.latest_close s = Some (Price.close latest) /\
       forall p, In p prices -> (Price.date p <= Price.date latest)%Z).
Proof.
  split; [|split].
  - intros r Hr.
    destruct stock as [st|]; [|discriminate].
    destruct prices as [|p0 rest]; [discriminate|].
    destruct (get_indicators_run st (p0 :: rest) stock_id ltac:(discriminate))
      as (latest & ma_5 & ma_20 & rsi & mom & Hl & _ & _ & _ & _ & Hrun).
    rewrite Hrun in Hr. injection Hr as <-.
    exists latest. destruct (latest_of_series _ _ Hl) as [Hin Hmax].
    simpl. auto.
  - intros r Hr.
    destruct (predict_dummy_returns _ _ _ _ _ Hr) as (st & -> & Hh & Hlen).
    destruct (predict_dummy_run st prices stock_id horizon_days Hh Hlen)
      as (latest & base & rsi & mom & Hl & _ & _ & _ & Hrun).
    rewrite Hrun in Hr. injection Hr as <-.
    exists latest. destruct (latest_of_series _ _ Hl) as [Hin Hmax].
    simpl. auto.
  - intros s Hs.
    destruct stock as [st|]; [|discriminate].
    destruct (Z.lt_ge_cases (len prices) (horizon_days + 1)) as [Hshort|Hlen].
    { unfold get_stock_full_summary in Hs.
      rewrite (proj2 (Z.ltb_lt _ _) Hshort) in Hs. discriminate. }
    destruct (get_stock_full_summary_steps st prices stock_id horizon_days Hlen)
      as (ma_5 & ma_20 & rsi & mom & _ & _ & _ & _ & Hrun).
    rewrite Hrun in Hs.
    destruct (index (sorted_by_date prices) (-1)) as [latest|e] eqn:Hl;
      [|discriminate].
    destruct (index (sorted_by_date prices) (- (horizon_days + 1))) as [base|e];
      [|discriminate].
    injection Hs as <-.
    exists latest. destruct (latest_of_series _ _ Hl) as [Hin Hmax].
    simpl. auto.
Qed.

(** X3: the indicator endpoint and the combined summary agree.  Whenever
    both return on the same stock and prices, they report the same
    latest date and close, the same moving averages, the same RSI and the
    same momentum. *)
Theorem indicators_agree_with_summary (stock : option Stock.t)
    (prices : list Price.t) (stock_id horizon_days : Z)
    (i : IndicatorSummary.t) (s : StockFullSummary.t) :
  get_indicators stock prices stock_id = Ok i ->
  get_stock_full_summary stock prices stock_id horizon_days = Ok s ->
  IndicatorSummary.latest_date i = StockFullSummary.latest_date s /\
  IndicatorSummary.latest_close i = StockFullSummary.latest_close s /\
  IndicatorSummary.ma_5 i = StockFullSummary.ma_5 s /\
  IndicatorSummary.ma_20 i = StockFullSummary.ma_20 s /\
  IndicatorSummary.rsi_14 i = StockFullSummary.rsi_14 s /\
  IndicatorSummary.momentum_3d i = StockFullSummary.momentum_3d s.
Proof.
  intros Hi Hs.
  destruct stock as [st|]; [|discriminate].
  destruct prices as [|p0 rest]; [discriminate|].
  destruct (get_indicators_run st (p0 :: rest) stock_id ltac:(discriminate))
    as (latest & ma_5 & ma_20 & rsi & mom & Hl & H5 & H20 & Hrsi & Hmom & Hrun).
  rewrite Hrun in Hi. injection Hi as <-.
  destruct (Z.lt_ge_cases (len (p0 :: rest)) (horizon_days + 1)) as [Hshort|Hlen].
  { unfold get_stock_full_summary in Hs.
    rewrite (proj2 (Z.ltb_lt _ _) Hshort) in Hs. discriminate. }
  destruct (get_stock_full_summary_steps st (p0 :: rest) stock_id horizon_days Hlen)
    as (ma_5' & ma_20' & rsi' & mom' & H5' & H20' & Hrsi' & Hmom' & Hrun').
  rewrite Hrun', Hl in Hs.
  destruct (index (sorted_by_date (p0 :: rest)) (- (horizon_days + 1)))
    as [base|e]; [|discriminate].
  injection Hs as <-. simpl.
  repeat split; congruence.
Qed.

Lemma indicators_agree_with_summary_witness :
  exists i s,
    get_indicators (Some a_stock) (bars spec_closes) 1 = Ok i /\
    get_stock_full_summary (Some a_stock) (bars spec_closes) 1 3 = Ok s /\
    IndicatorSummary.rsi_14 i = StockFullSummary.rsi_14 s /\
    IndicatorSummary.momentum_3d i = StockFullSummary.momentum_3d s.
Proof.
  eexists. eexists.
  split; [vm_compute; reflexivity|]. split; [vm_compute; reflexivity|].
  edestruct (indicators_agree_with_summary
               (Some a_stock) (bars spec_closes) 1 3)
    as (_ & _ & _ & _ & Hrsi & Hmom);
    [vm_compute; reflexivity | vm_compute; reflexivity |].
  split; [exact Hrsi | exact Hmom].
Defined.

(** ** The final clamp never binds *)

Lemma raw_prob_up_range (recent_return : Q) (rsi_14 mom_3d : option Q) :
  0.27 <= raw_prob_up recent_return rsi_14 mom_3d /\
  raw_prob_up recent_return rsi_14 mom_3d <= 0.73.
Proof.
  unfold raw_prob_up. cbv zeta.
  assert (H : -0.15 <= max (-0.15) (min 0.15 (recent_return * 2)) /\
              max (-0.15) (min 0.15 (recent_return * 2)) <= 0.15).
  { generalize (recent_return * 2). intro x. unfold min.
    destruct (ltb x 0.15) eqn:E1; [apply ltb_true in E1 | apply ltb_false in E1];
      unfold max; ltb_cases; lra. }
  revert H. generalize (max (-0.15) (min 0.15 (recent_return * 2))).
  intros step [Hlo Hhi].
  destruct rsi_14 as [r|]; destruct mom_3d as [m|]; ltb_cases; lra.
Qed.

Lemma prob_up_of_unclamped (recent_return : Q) (rsi_14 mom_3d : option Q) :
  prob_up_of recent_return rsi_14 mom_3d =
  raw_prob_up recent_return rsi_14 mom_3d.
Proof.
  unfold prob_up_of.
  destruct (raw_prob_up_range recent_return rsi_14 mom_3d) as [Hlo Hhi].
  revert Hlo Hhi. generalize (raw_prob_up recent_return rsi_14 mom_3d).
  intros raw Hlo Hhi. unfold min.
  destruct (ltb raw 0.95) eqn:E1; [|apply ltb_false in E1; lra].
  unfold max.
  destruct (ltb 0.05 raw) eqn:E2; [reflexivity|apply ltb_false in E2; lra].
Qed.

(** X4: the probability both prediction endpoints return always lies in
    [0.27, 0.73]: the three adjustments move 0.5 by at most 0.15, 0.05
    and 0.03, so the final clamp to [0.05, 0.95] never changes it. *)
Theorem prob_up_narrow_range (stock : option Stock.t) (prices : list Price.t)
    (stock_id horizon_days : Z) :
  (forall r,
     predict_dummy stock prices stock_id horizon_days = Ok r ->
     0.27 <= PredictionSummary.prob_up r /\
     PredictionSummary.prob_up r <= 0.73) /\
  (forall s,
     get_stock_full_summary stock prices stock_id horizon_days = Ok s ->
     0.27 <= StockFullSummary.prob_up s /\
     StockFullSummary.prob_up s <= 0.73).
Proof.
  split.
  - intros r Hr.
    destruct (predict_dummy_returns _ _ _ _ _ Hr) as (st & -> & Hh & Hlen).
    destruct (predict_dummy_run st prices stock_id horizon_days Hh Hlen)
      as (latest & base & rsi & mom & _ & _ & _ & _ & Hrun).
    rewrite Hrun in Hr. injection Hr as <-. simpl.
    rewrite prob_up_of_unclamped. apply raw_prob_up_range.
  - intros s Hs.
    destruct stock as [st|]; [|discriminate].
    destruct (Z.lt_ge_cases (len prices) (horizon_days + 1)) as [Hshort|Hlen].
    { unfold get_stock_full_summary in Hs.
      rewrite (proj2 (Z.ltb_lt _ _) Hshort) in Hs. discriminate. }
    destruct (get_stock_full_summary_steps st prices stock_id horizon_days Hlen)
      as (ma_5 & ma_20 & rsi & mom & _ & _ & _ & _ & Hrun).
    rewrite Hrun in Hs.
    destruct (index (sorted_by_date prices) (-1)) as [latest|e]; [|discriminate].
    destruct (index (sorted_by_date prices) (- (horizon_days + 1))) as [base|e];
      [|discriminate].
    injection Hs as <-. simpl.
    rewrite prob_up_of_unclamped. apply raw_prob_up_range.
Qed.




(** ** The order of the fetched prices *)

(** Two date-sorted arrangements of the same prices are the same list
    when no two prices share a date. *)
Lemma sorted_unique (l1 l2 : list Price.t) :
  StronglySorted (fun p q => (Price.date p <= Price.date q)%Z) l1 ->
  StronglySorted (fun p q => (Price.date p <= Price.date q)%Z) l2 ->
  Permutation l1 l2 -> distinct_dates l1 -> l1 = l2.
Proof.
  unfold distinct_dates, dates.
  intro H1. revert l2.
  induction H1 as [|a l1 Hs1 IH Ha]; intros l2 H2 Hperm Hnd.
  - symmetry. now apply Permutation_nil.
  - destruct l2 as [|b l2].
    + apply Permutation_sym, Permutation_nil in Hperm. discriminate.
    + apply StronglySorted_inv in H2. destruct H2 as [Hs2 Hb].
      simpl in Hnd. apply NoDup_cons_iff in Hnd. destruct Hnd as [Hnotin Hnd].
      rewrite Forall_forall in Ha, Hb.
      assert (Hab : a = b).
      { assert (Hina : In a (b :: l2))
          by (apply (Permutation_in _ Hperm); now left).
        assert (Hinb : In b (a :: l1))
          by (apply (Permutation_in _ (Permutation_sym Hperm)); now left).
        destruct Hina as [Hba|Hina]; [now symmetry|].
        destruct Hinb as [Hab|Hinb]; [exact Hab|].
        exfalso. apply Hnotin.
        pose proof (Ha b Hinb). pose proof (Hb a Hina).
        replace (Price.date a) with (Price.date b) by lia.
        now apply in_map. }
      subst b. f_equal.
      apply IH; [exact Hs2 | | exact Hnd].
      now apply Permutation_cons_inv in Hperm.
Qed.

Lemma sorted_by_date_any_order (prices prices' : list Price.t) :
  Permutation prices prices' -> distinct_dates prices ->
  sorted_by_date prices' = sorted_by_date prices.
Proof.
  intros Hperm Hnd. symmetry. apply sorted_unique.
  - apply oldest_first_strong, sorted_by_date_sorted.
  - apply oldest_first_strong, sorted_by_date_sorted.
  - rewrite sorted_by_date_permutation, Hperm.
    apply Permutation_sym, sorted_by_date_permutation.
  - unfold distinct_dates, dates in *.
    apply (Permutation_NoDup (l := map Price.date prices)); [|exact Hnd].
    apply Permutation_map, Permutation_sym, sorted_by_date_permutation.
Qed.

(** X9: when no two of the fetched prices share a date, the order in
    which the store hands them over does not matter: on any rearrangement
    of the same prices each of the three endpoints has the same outcome. *)
Theorem endpoints_ignore_order (stock : option Stock.t)
    (prices prices' : list Price.t) (stock_id horizon_days : Z) :
  Permutation prices prices' -> distinct_dates prices ->
  get_indicators stock prices' stock_id =
    get_indicators stock prices stock_id /\
  predict_dummy stock prices' stock_id horizon_days =
    predict_dummy stock prices stock_id horizon_days /\
  get_stock_full_summary stock prices' stock_id horizon_days =
    get_stock_full_summary stock prices stock_id horizon_days.
Proof.
  intros Hperm Hnd.
  pose proof (sorted_by_date_any_order prices prices' Hperm Hnd) as Hsort.
  assert (Hlen : len prices' = len prices).
  { unfold len. f_equal. symmetry. now apply Permutation_length. }
  split; [|split].
  - unfold get_indicators. destruct stock as [st|]; [|reflexivity].
    destruct prices as [|p0 rest]; destruct prices' as [|p0' rest'].
    + reflexivity.
    + apply Permutation_nil in Hperm. discriminate.
    + apply Permutation_sym, Permutation_nil in Hperm. discriminate.
    + cbv beta iota zeta. now rewrite Hsort.
  - unfold predict_dummy. now rewrite Hlen, Hsort.
  - unfold get_stock_full_summary. now rewrite Hlen, Hsort.
Qed.

Lemma endpoints_ignore_order_witness :
  predict_dummy (Some a_stock) (rev (bars spec_closes)) 1 3 =
  predict_dummy (Some a_stock) (bars spec_closes) 1 3.
Proof.
  apply (endpoints_ignore_order (Some a_stock)
           (bars spec_closes) (rev (bars spec_closes)) 1 3).
  - apply Permutation_rev.
  - unfold distinct_dates.
    apply (NoDup_map_inv (fun d : Z => d)). rewrite map_id.
    vm_compute. repeat constructor; simpl; lia.
Defined.

(** ** Return and momentum at the default horizon *)

(** X10: in a combined summary for [horizon_days = 3] the reference bar
    of the return is the fourth bar from the end, the one the 3-day
    momentum uses.  When its close is positive the momentum is available
    and [expected_return] is exactly that momentum times 100.0; when its
    close is not positive [expected_return] is 0.0 times 100.0. *)
Theorem summary_return_is_momentum (stock : option Stock.t)
    (prices : list Price.t) (stock_id : Z) (s : StockFullSummary.t) :
  get_stock_full_summary stock prices stock_id 3 = Ok s ->
  exists base,
    index (sorted_by_date prices) (-4) = Ok base /\
    (0 < Price.close base ->
     exists m, StockFullSummary.momentum_3d s = Some m /\
               StockFullSummary.expected_return s = m * 100.0) /\
    (Price.close base <= 0 ->
     StockFullSummary.expected_return s = 0.0 * 100.0).
Proof.
  intro Hs.
  destruct stock as [st|]; [|discriminate].
  destruct (Z.lt_ge_cases (len prices) (3 + 1)) as [Hshort|Hlen].
  { unfold get_stock_full_summary in Hs.
    rewrite (proj2 (Z.ltb_lt _ _) Hshort) in Hs. discriminate. }
  destruct (get_stock_full_summary_steps st prices stock_id 3 Hlen)
    as (ma_5 & ma_20 & rsi & mom & _ & _ & _ & Hmom & Hrun).
  rewrite Hrun in Hs.
  destruct (index (sorted_by_date prices) (-1)) as [latest|e] eqn:Hl;
    [|discriminate].
  change (- (3 + 1))%Z with (-4)%Z in Hs.
  destruct (index (sorted_by_date prices) (-4)) as [base|e] eqn:Hb;
    [|discriminate].
  injection Hs as <-. exists base. split; [reflexivity|]. simpl.
  destruct (calc_momentum_long (map Price.close (sorted_by_date prices)) 3)
    as (bp & lp & Hbp & Hlp & E); [lia | now rewrite len_closes |].
  assert (Hbp' : index (map Price.close (sorted_by_date prices)) (-4) = Ok bp)
    by exact Hbp.
  clear Hbp. rename Hbp' into Hbp.
  rewrite index_map in Hbp, Hlp.
  rewrite Hb in Hbp. rewrite Hl in Hlp.
  injection Hbp as <-. injection Hlp as <-.
  rewrite E in Hmom.
  unfold Spec.recent_return.
  split.
  - intro Hpos.
    assert (E1 : Qeq_bool (Price.close base) 0 = false).
    { destruct (Qeq_bool (Price.close base) 0) eqn:E1; [|reflexivity].
      apply Qeq_bool_eq in E1. lra. }
    assert (E2 : Qle_bool (Price.close base) 0 = false).
    { destruct (Qle_bool (Price.close base) 0) eqn:E2; [|reflexivity].
      apply Qle_bool_iff in E2. lra. }
    rewrite E1 in Hmom. injection Hmom as <-. rewrite E2.
    eexists. split; reflexivity.
  - intro Hle.
    now rewrite (proj2 (Qle_bool_iff _ _) Hle).
Qed.

Lemma summary_return_is_momentum_witness :
  exists s m,
    get_stock_full_summary (Some a_stock) (bars spec_closes) 1 3 = Ok s /\
    StockFullSummary.momentum_3d s = Some m /\
    StockFullSummary.expected_return s = m * 100.0.
Proof.
  edestruct (summary_return_is_momentum (Some a_stock) (bars spec_closes) 1)
    as (base & Hb & Hpos & _); [vm_compute; reflexivity|].
  injection Hb as <-.
  destruct Hpos as (m & Hm & He); [unfold Qlt; simpl; lia|].
  eexists. exists m. split; [vm_compute; reflexivity|]. split; assumption.
Defined.

(** ** The moving average as a mean *)



Lemma calc_sma_value (values : list Q) (window : Z) :
  (0 < window)%Z -> (window <= len values)%Z ->
  exists m,
    calc_sma values window = Ok (Some m) /\
    m == fold_right Qplus 0 (Spec.last_n (Z.to_nat window) values)
         / inject_Z window.
Proof.
  intros Hw Hlen. eexists. split; [apply calc_sma_long; lia|].
  rewrite slice_from_end by lia. now rewrite sum_fold_right.
Qed.



Lemma fold_right_Qplus_affine (k c : Q) (l : list Q) :
  fold_right Qplus 0 (map (fun x => k * x + c) l) ==
  k * fold_right Qplus 0 l + inject_Z (Z.of_nat (List.length l)) * c.
Proof.
  induction l as [|x l IH].
  - simpl. change (inject_Z 0) with 0. ring.
  - change (List.length (x :: l)) with (S (List.length l)).
    rewrite Nat2Z.inj_succ. unfold Z.succ. rewrite inject_Z_plus.
    simpl fold_right. simpl map. simpl fold_right.
    rewrite IH. change (inject_Z 1) with 1. ring.
Qed.

(** X12: the moving average follows a change of unit and origin: for a
    positive window, SMA of the values [k*x + c] is unavailable exactly
    when SMA of the values is, and otherwise is [k * SMA + c]. *)
Theorem calc_sma_affine (values : list Q) (window : Z) (k c : Q) :
  (0 < window)%Z ->
  match calc_sma values window,
        calc_sma (map (fun x => k * x + c) values) window with
  | Ok (Some m), Ok (Some m') => m' == k * m + c
  | Ok None, Ok None => True
  | _, _ => False
  end.
Proof.
  intro Hw.
  assert (Hlen' : len (map (fun x => k * x + c) values) = len values).
  { unfold len. now rewrite length_map. }
  destruct (Z.lt_ge_cases (len values) window) as [Hshort|Hlen].
  - rewrite !calc_sma_short by lia. exact I.
  - destruct (calc_sma_value values window Hw Hlen) as (m & Hm & Hval).
    destruct (calc_sma_value (map (fun x => k * x + c) values) window Hw)
      as (m' & Hm' & Hval'); [lia|].
    rewrite Hm, Hm', Hval', Hval.
    unfold Spec.last_n. rewrite length_map, skipn_map.
    rewrite fold_right_Qplus_affine.
    rewrite length_skipn.
    replace (Z.of_nat (List.length values - (List.length values - Z.to_nat window)))
      with window by (unfold len in Hlen; lia).
    field. apply inject_Z_nonzero. lia.
Qed.

Lemma calc_sma_affine_witness :
  (0 < 3)%Z /\
  exists m m',
    calc_sma spec_closes 3 = Ok (Some m) /\
    calc_sma (map (fun x => 2 * x + 1) spec_closes) 3 = Ok (Some m') /\
    m' == 2 * m + 1.
Proof.
  split; [lia|].
  pose proof (calc_sma_affine spec_closes 3 2 1 ltac:(lia)) as H.
  destruct (calc_sma spec_closes 3) as [[m|]|e] eqn:E1;
    destruct (calc_sma (map (fun x => 2 * x + 1) spec_closes) 3)
      as [[m'|]|e'] eqn:E2; try contradiction; try discriminate.
  exists m, m'. auto.
Defined.

(** ** The indicators under a change of unit or origin *)

Lemma Forall2_split_at {A B : Type} (R : A -> B -> Prop) (n : nat)
    (l : list A) (l' : list B) :
  Forall2 R l l' ->
  Forall2 R (firstn n l) (firstn n l') /\ Forall2 R (skipn n l) (skipn n l').
Proof.
  intro H. revert n.
  induction H as [|x y l l' Hxy Hll IH]; intro n.
  - rewrite !firstn_nil, !skipn_nil. split; constructor.
  - destruct n as [|n]; simpl.
    + split; [constructor | constructor; assumption].
    + destruct (IH n) as [Hf Hs]. split; [constructor|]; assumption.
Qed.

Lemma sum_map_scaled (part : Q -> Q) (k : Q) (l' l : list Q) :
  Forall2 (fun x' x => part x' == k * part x) l' l ->
  sum (map part l') == k * sum (map part l).
Proof.
  intro H. rewrite !sum_fold_right.
  induction H as [|x' x l' l Hx _ IH]; simpl; [ring|].
  rewrite Hx, IH. ring.
Qed.

Lemma wilder_scaled (period : Z) (part : Q -> Q) (k : Q)
    (chs' chs : list Q) (avg' avg : Q) :
  Forall2 (fun x' x => part x' == k * part x) chs' chs ->
  avg' == k * avg ->
  wilder period part chs' avg' == k * wilder period part chs avg.
Proof.
  intro H. unfold wilder. revert avg' avg.
  induction H as [|x' x l' l Hx _ IH]; intros avg' avg Havg; simpl;
    [exact Havg|].
  apply IH. rewrite Havg, Hx. unfold Qdiv. ring.
Qed.

(** Changes that are a positive multiple of other changes have the same
    sign, so each part is the same multiple. *)
Lemma scaled_sign (k x' x : Q) :
  0 < k -> x' == k * x -> ltb 0 x' = ltb 0 x /\ ltb x' 0 = ltb x 0.
Proof.
  intros Hk Hx.
  split.
  - destruct (ltb 0 x) eqn:E.
    + apply ltb_true in E. apply ltb_true. nra.
    + apply ltb_false in E. apply ltb_false. nra.
  - destruct (ltb x 0) eqn:E.
    + apply ltb_true in E. apply ltb_true. nra.
    + apply ltb_false in E. apply ltb_false. nra.
Qed.

Lemma scaled_parts (k x' x : Q) :
  0 < k -> x' == k * x ->
  seed_gain_of x' == k * seed_gain_of x /\
  seed_loss_of x' == k * seed_loss_of x /\
  gain_of x' == k * gain_of x /\
  loss_of x' == k * loss_of x.
Proof.
  intros Hk Hx.
  destruct (scaled_sign k x' x Hk Hx) as [E1 E2].
  unfold seed_gain_of, seed_loss_of, gain_of, loss_of.
  rewrite E1, E2.
  destruct (ltb 0 x); destruct (ltb x 0);
    repeat split; try (rewrite Hx); try ring.
Qed.

Lemma final_avgs_scaled (closes' closes : list Q) (period : Z) (k : Q) :
  0 < k ->
  Forall2 (fun x' x => x' == k * x) (changes_of closes') (changes_of closes) ->
  final_avg_gain closes' period == k * final_avg_gain closes period /\
  final_avg_loss closes' period == k * final_avg_loss closes period.
Proof.
  intros Hk H.
  destruct (Forall2_split_at _ (Z.to_nat period) _ _ H) as [Hf Hs].
  unfold final_avg_gain, final_avg_loss. cbv zeta.
  split.
  - apply wilder_scaled.
    + revert Hs. apply Forall2_impl. intros a b Hab.
      apply (scaled_parts k a b Hk Hab).
    + assert (Hsum : sum (map seed_gain_of
                            (firstn (Z.to_nat period) (changes_of closes'))) ==
                     k * sum (map seed_gain_of
                                (firstn (Z.to_nat period) (changes_of closes)))).
      { apply sum_map_scaled. revert Hf. apply Forall2_impl. intros a b Hab.
        apply (scaled_parts k a b Hk Hab). }
      rewrite Hsum. unfold Qdiv. ring.
  - apply wilder_scaled.
    + revert Hs. apply Forall2_impl. intros a b Hab.
      apply (scaled_parts k a b Hk Hab).
    + assert (Hsum : sum (map seed_loss_of
                            (firstn (Z.to_nat period) (changes_of closes'))) ==
                     k * sum (map seed_loss_of
                                (firstn (Z.to_nat period) (changes_of closes)))).
      { apply sum_map_scaled. revert Hf. apply Forall2_impl. intros a b Hab.
        apply (scaled_parts k a b Hk Hab). }
      rewrite Hsum. unfold Qdiv. ring.
Qed.

Lemma rsi_of_scaled (k g' g l' l : Q) :
  0 < k -> g' == k * g -> l' == k * l -> rsi_of g' l' == rsi_of g l.
Proof.
  intros Hk Hg Hl. unfold rsi_of.
  destruct (Qeq_bool l 0) eqn:E.
  - apply Qeq_bool_eq in E.
    assert (E' : l' == 0) by (rewrite Hl, E; ring).
    rewrite (Qeq_eq_bool _ _ E'). reflexivity.
  - apply Qeq_bool_neq in E.
    destruct (Qeq_bool l' 0) eqn:E'.
    + apply Qeq_bool_eq in E'. exfalso. apply E.
      rewrite Hl in E'. nra.
    + assert (Hratio : g' / l' == g / l).
      { rewrite Hg, Hl. field. split; [exact E | lra]. }
      rewrite Hratio. reflexivity.
Qed.

Lemma calc_rsi_scaled (closes' closes : list Q) (period : Z) (k : Q) :
  (1 <= period)%Z -> 0 < k -> len closes' = len closes ->
  Forall2 (fun x' x => x' == k * x) (changes_of closes') (changes_of closes) ->
  same_reading (calc_rsi closes' period) (calc_rsi closes period).
Proof.
  intros Hp Hk Hlen H.
  destruct (Z.lt_ge_cases (len closes) (period + 1)) as [Hshort|Hlong].
  - rewrite !calc_rsi_short by lia. exact I.
  - rewrite !calc_rsi_long by lia. simpl.
    destruct (final_avgs_scaled closes' closes period k Hk H) as [Hg Hl].
    exact (rsi_of_scaled k _ _ _ _ Hk Hg Hl).
Qed.


Lemma diffs_scaled (k : Q) (closes : list Q) :
  Forall2 (fun x' x => x' == k * x)
    (Spec.diffs (map (Qmult k) closes)) (Spec.diffs closes).
Proof.
  induction closes as [|a rest IH]; [constructor|].
  destruct rest as [|b rest]; [constructor|].
  change (Spec.diffs (a :: b :: rest)) with ((b - a) :: Spec.diffs (b :: rest)).
  change (Spec.diffs (map (Qmult k) (a :: b :: rest)))
    with ((k * b - k * a) :: Spec.diffs (map (Qmult k) (b :: rest))).
  constructor; [ring | exact IH].
Qed.



(** X14: the RSI does not depend on the unit of the prices: multiplying
    every close by the same positive factor leaves RSI(closes, period) as
    it is, for [period >= 1]. *)
Theorem calc_rsi_scale_invariant (closes : list Q) (period : Z) (k : Q) :
  (1 <= period)%Z -> 0 < k ->
  same_reading (calc_rsi (map (Qmult k) closes) period)
               (calc_rsi closes period).
Proof.
  intros Hp Hk. apply (calc_rsi_scaled _ _ period k Hp Hk).
  - unfold len. now rewrite length_map.
  - rewrite !changes_of_diffs. apply diffs_scaled.
Qed.

Lemma calc_rsi_scale_invariant_witness :
  (1 <= 14)%Z /\ 0 < 1000 /\
  same_reading (calc_rsi (map (Qmult 1000) spec_closes) 14)
               (calc_rsi spec_closes 14).
Proof.
  split; [lia|]. split; [reflexivity|].
  apply calc_rsi_scale_invariant; [lia | reflexivity].
Defined.




(** ** The prediction under a change of unit *)










(** ** A series that only falls *)

Lemma decreasing_diffs (closes : list Q) :
  decreasing closes = true -> Forall (fun ch => ch < 0) (Spec.diffs closes).
Proof.
  induction closes as [|a rest IH]; [constructor|].
  destruct rest as [|b rest]; [constructor|].
  change (decreasing (a :: b :: rest)) with (ltb b a && decreasing (b :: rest)).
  change (Spec.diffs (a :: b :: rest)) with ((b - a) :: Spec.diffs (b :: rest)).
  intro H. apply andb_true_iff in H. destruct H as [Hab Hrest].
  constructor; [|exact (IH Hrest)].
  apply ltb_true in Hab. lra.
Qed.

Lemma fold_right_Qplus_pos (l : list Q) :
  l <> [] -> Forall (fun x => 0 < x) l -> 0 < fold_right Qplus 0 l.
Proof.
  intros Hne H. destruct H as [|x l Hx Hl]; [contradiction|].
  simpl. assert (0 <= fold_right Qplus 0 l); [|lra].
  apply fold_right_Qplus_nonneg. revert Hl. apply Forall_impl.
  intros y Hy. lra.
Qed.

Lemma wilder_pos (period : Z) (part : Q -> Q) (chs : list Q) (avg : Q) :
  (1 <= period)%Z -> Forall (fun x => 0 < part x) chs -> 0 < avg ->
  0 < wilder period part chs avg.
Proof.
  intros Hp H. unfold wilder. revert avg.
  induction H as [|x l Hx _ IH]; intros avg Havg; simpl; [exact Havg|].
  apply IH. apply Qlt_shift_div_l; [apply inject_Z_pos; lia|].
  assert (H1 : 0 <= inject_Z (period - 1)).
  { change 0 with (inject_Z 0). rewrite <- Zle_Qle. lia. }
  nra.
Qed.

Lemma final_avg_loss_pos (closes : list Q) (period : Z) :
  (1 <= period)%Z -> (period + 1 <= len closes)%Z ->
  Forall (fun ch => ch < 0) (changes_of closes) ->
  0 < final_avg_loss closes period.
Proof.
  intros Hp Hlen H.
  assert (Hchlen : List.length (changes_of closes) = (List.length closes - 1)%nat).
  { rewrite changes_of_diffs. apply length_diffs. }
  destruct (Forall_split_at _ (Z.to_nat period) _ H) as [Hf Hs].
  unfold final_avg_loss. cbv zeta.
  apply wilder_pos; [exact Hp | |].
  - revert Hs. apply Forall_impl. intros ch Hch.
    unfold loss_of. rewrite (proj2 (ltb_true ch 0) Hch). lra.
  - apply Qlt_shift_div_l; [apply inject_Z_pos; lia|].
    rewrite sum_fold_right.
    assert (Hpos : 0 < fold_right Qplus 0
                         (map seed_loss_of
                            (firstn (Z.to_nat period) (changes_of closes)))).
    { apply fold_right_Qplus_pos.
      - intro E. apply (f_equal (@List.length Q)) in E.
        rewrite length_map, length_firstn, Hchlen in E.
        simpl in E. unfold len in Hlen. lia.
      - apply Forall_forall. intros y Hy.
        apply in_map_iff in Hy. destruct Hy as (ch & <- & Hin).
        rewrite Forall_forall in Hf. specialize (Hf ch Hin).
        unfold seed_loss_of.
        rewrite (proj2 (ltb_false 0 ch)) by lra. lra. }
    lra.
Qed.

(** X17: on a strictly decreasing series with at least [period+1] closes
    ([period >= 1]) the RSI is available and is 0: there is no gain, and
    the average loss is positive. *)
Theorem falling_series_rsi (closes : list Q) (period : Z) :
  (1 <= period)%Z -> (period + 1 <= len closes)%Z ->
  decreasing closes = true ->
  exists v, calc_rsi closes period = Ok (Some v) /\ v == 0.
Proof.
  intros Hp Hlen Hdec.
  assert (Hneg : Forall (fun ch => ch < 0) (changes_of closes)).
  { rewrite changes_of_diffs. now apply decreasing_diffs. }
  eexists. split; [apply calc_rsi_long; assumption|].
  apply rsi_of_range.
  - apply final_avg_gain_nonneg, Hp.
  - apply final_avg_loss_nonneg, Hp.
  - split.
    + apply final_avg_gain_zero. revert Hneg. apply Forall_impl.
      intros ch Hch. lra.
    + pose proof (final_avg_loss_pos closes period Hp Hlen Hneg). lra.
Qed.

Lemma falling_series_rsi_witness :
  exists v, calc_rsi falling_closes 14 = Ok (Some v) /\ v == 0.
Proof.
  apply falling_series_rsi; [lia | vm_compute; discriminate | reflexivity].
Defined.

(** ** Periods that are not positive *)

(** X18: [calc_rsi] does not validate its period.  With period 0 the
    empty list is "unavailable" and every non-empty list raises a
    division by zero in the seed average. *)
Theorem calc_rsi_zero_period (closes : list Q) :
  (closes = [] -> calc_rsi closes 0 = Ok None) /\
  (closes <> [] -> calc_rsi closes 0 = Raise ZeroDivisionError).
Proof.
  split.
  - intros ->. reflexivity.
  - apply calc_rsi_period_zero.
Qed.

(** X19: [calc_momentum] does not validate its period either.  With
    [period <= -1] the length guard never fires and the reference price is
    read at the position [-period-1] counted from the start: the call
    raises [IndexError] exactly when the list has at most [-period-1]
    entries, and returns otherwise. *)
Theorem calc_momentum_negative_period (closes : list Q) (period : Z) :
  (period <= -1)%Z ->
  (calc_momentum closes period = Raise IndexError <->
   (len closes <= - period - 1)%Z) /\
  ((exists r, calc_momentum closes period = Ok r) <->
   (- period - 1 < len closes)%Z).
Proof.
  intro Hp. pose proof (len_nonneg closes) as Hnn.
  unfold calc_momentum.
  rewrite (proj2 (Z.ltb_ge (len closes) (period + 1))) by lia.
  rewrite (index_nonneg closes (- period - 1) 0) by lia.
  destruct (- period - 1 <? len closes)%Z eqn:E.
  - apply Z.ltb_lt in E. simpl bind.
    rewrite (index_minus_one closes 0) by (apply len_pos_nonempty; lia).
    simpl bind.
    destruct (Qeq_bool _ 0) eqn:Eb.
    + settle_outcome.
    + rewrite div_ok by (apply Qeq_bool_neq; exact Eb). simpl.
      settle_outcome.
  - apply Z.ltb_ge in E. simpl bind. settle_outcome.
Qed.

Lemma calc_momentum_negative_period_witness :
  (-3 <= -1)%Z /\ calc_momentum jump_closes (-3) = Raise IndexError.
Proof.
  split; [lia|].
  apply (proj1 (calc_momentum_negative_period jump_closes (-3) ltac:(lia))).
  vm_compute. discriminate.
Defined.

(** ** Queries on the store *)

Lemma first_filter_none {A : Type} (f : A -> bool) (rows : list A) :
  crud.first (filter f rows) = None <-> forall x, In x rows -> f x = false.
Proof.
  induction rows as [|r rows IH]; simpl.
  - split; [intros _ x [] | reflexivity].
  - destruct (f r) eqn:E; simpl.
    + split; [discriminate|]. intro H. specialize (H r (or_introl eq_refl)).
      congruence.
    + rewrite IH. split.
      * intros H x [<-|Hx]; [exact E | now apply H].
      * intros H x Hx. apply H. now right.
Qed.

Lemma first_filter_some {A : Type} (f : A -> bool) (rows : list A) (x : A) :
  crud.first (filter f rows) = Some x -> In x rows /\ f x = true.
Proof.
  intro H. apply filter_In.
  destruct (filter f rows) as [|y l]; [discriminate|].
  injection H as ->. now left.
Qed.


Lemma symbol_lookup (symbol : string) (stocks : list Stock.t) :
  crud.first (filter (fun s => String.eqb (Stock.symbol s) symbol) stocks) = None
  <-> ~ In symbol (map Stock.symbol stocks).
Proof.
  rewrite first_filter_none. split.
  - intros H Hin. apply in_map_iff in Hin. destruct Hin as (s & <- & Hs).
    specialize (H s Hs). rewrite String.eqb_refl in H. discriminate.
  - intros H s Hs. apply String.eqb_neq. intros <-.
    apply H. now apply in_map.
Qed.


Lemma get_stock_missing (db : Db.t) (stock_id : Z) :
  crud.get_stock db stock_id = None <->
  ~ In stock_id (map Stock.id (Db.stocks db)).
Proof.
  unfold crud.get_stock. rewrite first_filter_none. split.
  - intros H Hin. apply in_map_iff in Hin. destruct Hin as (s & <- & Hs).
    specialize (H s Hs). rewrite Z.eqb_refl in H. discriminate.
  - intros H s Hs. apply Z.eqb_neq. intros <-.
    apply H. now apply in_map.
Qed.



(** ** Registering a stock *)



(** ** Uniqueness of keys and symbols *)

Lemma update_keeps_ids (stock stock' : Stock.t) (stocks : list Stock.t) :
  Stock.id stock' = Stock.id stock ->
  map Stock.id
      (map (fun s => if (Stock.id s =? Stock.id stock)%Z then stock' else s) stocks)
  = map Stock.id stocks.
Proof.
  intro Hid. rewrite map_map. apply map_ext. intro s.
  destruct (Stock.id s =? Stock.id stock)%Z eqn:E; [|reflexivity].
  apply Z.eqb_eq in E. congruence.
Qed.

Lemma update_leaves_others (stock stock' : Stock.t) (stocks : list Stock.t) :
  ~ In (Stock.id stock) (map Stock.id stocks) ->
  map (fun s => if (Stock.id s =? Stock.id stock)%Z then stock' else s) stocks
  = stocks.
Proof.
  intro Hnotin. rewrite <- (map_id stocks) at 2.
  apply map_ext_in. intros s Hs.
  destruct (Stock.id s =? Stock.id stock)%Z eqn:E; [|reflexivity].
  apply Z.eqb_eq in E. exfalso. apply Hnotin. rewrite <- E. now apply in_map.
Qed.

Lemma update_symbols_subset (stock stock' : Stock.t) (stocks : list Stock.t)
    (symbol : string) :
  In symbol
     (map Stock.symbol
          (map (fun s => if (Stock.id s =? Stock.id stock)%Z then stock' else s)
               stocks)) ->
  symbol = Stock.symbol stock' \/ In symbol (map Stock.symbol stocks).
Proof.
  rewrite map_map. intro H. apply in_map_iff in H.
  destruct H as (s & Hs & Hin).
  destruct (Stock.id s =? Stock.id stock)%Z.
  - left. now symmetry.
  - right. rewrite <- Hs. now apply in_map.
Qed.

Lemma update_keeps_symbols_unique (stock stock' : Stock.t)
    (stocks : list Stock.t) :
  NoDup (map Stock.id stocks) -> NoDup (map Stock.symbol stocks) ->
  In stock stocks ->
  Stock.symbol stock' = Stock.symbol stock \/
  ~ In (Stock.symbol stock') (map Stock.symbol stocks) ->
  NoDup (map Stock.symbol
             (map (fun s => if (Stock.id s =? Stock.id stock)%Z then stock' else s)
                  stocks)).
Proof.
  induction stocks as [|s l IH]; intros Hids Hsyms Hin Hsym; [constructor|].
  simpl in Hids, Hsyms.
  apply NoDup_cons_iff in Hids. destruct Hids as [Hid_notin Hids].
  apply NoDup_cons_iff in Hsyms. destruct Hsyms as [Hsym_notin Hsyms].
  simpl map.
  destruct (Stock.id s =? Stock.id stock)%Z eqn:E.
  - apply Z.eqb_eq in E.
    assert (Hs : s = stock).
    { destruct Hin as [Hs|Hin]; [exact Hs|].
      exfalso. apply Hid_notin. rewrite E. now apply in_map. }
    subst s. rewrite update_leaves_others by exact Hid_notin.
    constructor; [|exact Hsyms].
    destruct Hsym as [Hsame|Hfree].
    + now rewrite Hsame.
    + intro H. apply Hfree. simpl. now right.
  - apply Z.eqb_neq in E.
    assert (Hin' : In stock l).
    { destruct Hin as [Hs|Hin]; [|exact Hin]. subst s. contradiction. }
    constructor.
    + intro H. apply update_symbols_subset in H. destruct H as [H|H].
      * destruct Hsym as [Hsame|Hfree].
        -- apply Hsym_notin. rewrite H, Hsame. now apply in_map.
        -- apply Hfree. simpl. left. now symmetry.
      * contradiction.
    + apply IH; try assumption.
      destruct Hsym as [Hsame|Hfree]; [now left|].
      right. intro H. apply Hfree. simpl. now right.
Qed.

(** X21: keys and symbols stay unique.  If no two stocks share a primary
    key or a symbol, that is still so after [crud.create_stock] (given a
    key that is not in use) and after [crud.update_stock], whether they
    succeed or raise. *)
Theorem stocks_stay_unique (db : Db.t) (stock_id : Z) (stock_in : StockCreate.t) :
  stocks_unique db ->
  (~ In stock_id (map Stock.id (Db.stocks db)) ->
   stocks_unique (snd (crud.create_stock db stock_id stock_in))) /\
  stocks_unique (snd (crud.update_stock db stock_id stock_in)).
Proof.
  intros [Hids Hsyms]. split.
  - intro Hfresh. unfold crud.create_stock.
    destruct (crud.first (filter _ (Db.stocks db))) eqn:E; [now split|].
    apply symbol_lookup in E. cbv zeta. unfold stocks_unique. simpl.
    rewrite !map_app. simpl. split.
    + apply NoDup_app; [exact Hids | repeat constructor; intros [] |].
      intros a Ha [<-|[]]. contradiction.
    + apply NoDup_app; [exact Hsyms | repeat constructor; intros [] |].
      intros a Ha [<-|[]]. contradiction.
  - unfold crud.update_stock.
    destruct (crud.first (filter (fun s => (Stock.id s =? stock_id)%Z)
                                 (Db.stocks db))) as [stock|] eqn:Efound;
      [|now split].
    apply first_filter_some in Efound. destruct Efound as [Hin _].
    cbv zeta.
    assert (Hupd : forall sym_ok :
                     StockCreate.symbol stock_in = Stock.symbol stock \/
                     ~ In (StockCreate.symbol stock_in)
                          (map Stock.symbol (Db.stocks db)),
               stocks_unique
                 {| Db.stocks :=
                      map (fun s =>
                             if (Stock.id s =? Stock.id stock)%Z
                             then {| Stock.id := Stock.id stock;
                                     Stock.symbol := StockCreate.symbol stock_in;
                                     Stock.name := StockCreate.name stock_in;
                                     Stock.market := StockCreate.market stock_in;
                                     Stock.sector := StockCreate.sector stock_in;
                                     Stock.currency := StockCreate.currency stock_in |}
                             else s) (Db.stocks db);
                    Db.prices := Db.prices db |}).
    { intro sym_ok. unfold stocks_unique. simpl. split.
      - rewrite update_keeps_ids by reflexivity. exact Hids.
      - apply update_keeps_symbols_unique; assumption. }
    destruct (String.eqb (Stock.symbol stock) (StockCreate.symbol stock_in)) eqn:Esym.
    + simpl. apply Hupd. left. symmetry. now apply String.eqb_eq.
    + simpl.
      destruct (crud.first (filter _ (Db.stocks db))) eqn:E; [now split|].
      apply symbol_lookup in E. simpl. apply Hupd. now right.
Qed.

Lemma stocks_stay_unique_witness :
  stocks_unique two_stocks /\
  stocks_unique (snd (crud.update_stock two_stocks 2
                        (StockCreate.mk "AAPL" "Apple" "NASDAQ" None "USD"))).
Proof.
  assert (H : stocks_unique two_stocks).
  { split; vm_compute;
      repeat (apply NoDup_cons;
              [intro Hin; simpl in Hin; intuition discriminate|]);
      apply NoDup_nil. }
  split; [exact H|].
  apply (stocks_stay_unique two_stocks 2
           (StockCreate.mk "AAPL" "Apple" "NASDAQ" None "USD") H).
Defined.

(** ** A taken symbol, at the two endpoints that can meet one *)

(** X22: a symbol clash is handled on registration only.  When the symbol
    of the request belongs to a stock of the store, [create_stock]
    answers 400 and leaves the store as it was; [update_stock], asked to
    give that symbol to a stock that has another one, has no handler for
    the [ValueError]: it escapes, and the store is as it was. *)
Theorem symbol_clash_at_endpoints (db : Db.t) (stock_id new_id : Z)
    (stock_in : StockCreate.t) (stock : Stock.t) :
  In (StockCreate.symbol stock_in) (map Stock.symbol (Db.stocks db)) ->
  crud.get_stock db stock_id = Some stock ->
  Stock.symbol stock <> StockCreate.symbol stock_in ->
  create_stock db new_id stock_in = (Raise (HTTPException 400), db) /\
  update_stock db stock_id stock_in = (Unhandled "Symbol already exists", db).
Proof.
  intros Htaken Hfound Hdiff.
  assert (Hhit : exists other,
             crud.first (filter (fun s => String.eqb (Stock.symbol s)
                                            (StockCreate.symbol stock_in))
                                (Db.stocks db)) = Some other).
  { destruct (crud.first (filter _ (Db.stocks db))) as [other|] eqn:E; [eauto|].
    apply symbol_lookup in E. contradiction. }
  destruct Hhit as [other Hother].
  split.
  - unfold create_stock, crud.create_stock. now rewrite Hother.
  - unfold update_stock, crud.update_stock.
    unfold crud.get_stock in Hfound. rewrite Hfound. cbv zeta.
    rewrite (proj2 (String.eqb_neq _ _) Hdiff). simpl negb. cbv iota.
    now rewrite Hother.
Qed.

Lemma symbol_clash_at_endpoints_witness :
  create_stock two_stocks 3 samsung = (Raise (HTTPException 400), two_stocks) /\
  update_stock two_stocks 2 samsung =
  (Unhandled "Symbol already exists", two_stocks).
Proof.
  apply (symbol_clash_at_endpoints two_stocks 2 3 samsung
           (Stock.mk 2 "000660.KS" "SK hynix" "KOSPI" None "KRW")).
  - vm_compute. now left.
  - reflexivity.
  - discriminate.
Defined.

(** ** Updating a stock *)




(** ** Registering a price *)




(** ** Listing the prices of a stock *)

Lemma insert_desc_permutation (p : Price.t) (l : list Price.t) :
  Permutation (crud.insert_desc p l) (p :: l).
Proof.
  induction l as [|q l IH]; simpl; [reflexivity|].
  destruct (Price.date q <=? Price.date p)%Z; [reflexivity|].
  rewrite IH. apply perm_swap.
Qed.

Lemma order_by_date_desc_permutation (rows : list Price.t) :
  Permutation (crud.order_by_date_desc rows) rows.
Proof.
  induction rows as [|p l IH]; simpl; [reflexivity|].
  rewrite insert_desc_permutation. now constructor.
Qed.

Lemma insert_desc_sorted (p : Price.t) (l : list Price.t) :
  newest_first l -> newest_first (crud.insert_desc p l).
Proof.
  unfold newest_first.
  induction 1 as [|q l Hl IH Hall]; simpl.
  - repeat constructor.
  - destruct (Price.date q <=? Price.date p)%Z eqn:E.
    + apply Z.leb_le in E. constructor; [now constructor|].
      constructor; [exact E|].
      revert Hall. apply Forall_impl. intros r Hr. lia.
    + apply Z.leb_gt in E. constructor; [exact IH|].
      apply Forall_forall. intros r Hr.
      apply (Permutation_in _ (insert_desc_permutation p l)) in Hr.
      destruct Hr as [<-|Hr]; [lia|].
      rewrite Forall_forall in Hall. now apply Hall.
Qed.

Lemma order_by_date_desc_sorted (rows : list Price.t) :
  newest_first (crud.order_by_date_desc rows).
Proof.
  induction rows as [|p l IH]; simpl.
  - constructor.
  - apply insert_desc_sorted, IH.
Qed.

Lemma strongly_sorted_app {A : Type} (R : A -> A -> Prop) (l1 l2 : list A) :
  StronglySorted R (l1 ++ l2) -> StronglySorted R l1 /\ StronglySorted R l2.
Proof.
  induction l1 as [|a l1 IH]; simpl; intro H.
  - split; [constructor | exact H].
  - apply StronglySorted_inv in H. destruct H as [Hs Hall].
    destruct (IH Hs) as [H1 H2]. split; [|exact H2].
    constructor; [exact H1|].
    apply Forall_app in Hall. tauto.
Qed.

Lemma offset_part {A : Type} (skip : Z) (rows : list A) :
  exists before, rows = before ++ crud.offset skip rows.
Proof.
  exists (firstn (Z.to_nat skip) rows). unfold crud.offset.
  symmetry. apply firstn_skipn.
Qed.

Lemma limit_part {A : Type} (lim : Z) (rows : list A) :
  exists after, rows = crud.limit lim rows ++ after.
Proof.
  unfold crud.limit. destruct (lim <? 0)%Z.
  - exists []. now rewrite app_nil_r.
  - exists (skipn (Z.to_nat lim) rows). symmetry. apply firstn_skipn.
Qed.

(** What a query returns is a stretch of the ordered rows of the stock. *)
Lemma list_prices_by_stock_part (db : Db.t) (stock_id skip lim : Z) :
  exists before after,
    crud.order_by_date_desc
      (filter (fun p => (Price.stock_id p =? stock_id)%Z) (Db.prices db)) =
    before ++ crud.list_prices_by_stock db stock_id skip lim ++ after.
Proof.
  unfold crud.list_prices_by_stock.
  set (rows := crud.order_by_date_desc _).
  destruct (offset_part skip rows) as [before Hb].
  destruct (limit_part lim (crud.offset skip rows)) as [after Ha].
  exists before, after. rewrite <- Ha. exact Hb.
Qed.

(** X25: what [crud.list_prices_by_stock] returns.  Every row belongs to
    the requested stock and is a row of the price table; the rows come
    newest first; with a limit that is not negative there are at most
    [limit] of them; and with no offset and a negative limit they are all
    the prices of the stock. *)
Theorem list_prices_by_stock_rows (db : Db.t) (stock_id skip lim : Z) :
  (forall p,
     In p (crud.list_prices_by_stock db stock_id skip lim) ->
     In p (Db.prices db) /\ Price.stock_id p = stock_id) /\
  newest_first (crud.list_prices_by_stock db stock_id skip lim) /\
  ((0 <= lim)%Z ->
   (len (crud.list_prices_by_stock db stock_id skip lim) <= lim)%Z) /\
  ((skip <= 0)%Z -> (lim < 0)%Z ->
   Permutation (crud.list_prices_by_stock db stock_id skip lim)
     (filter (fun p => (Price.stock_id p =? stock_id)%Z) (Db.prices db))).
Proof.
  destruct (list_prices_by_stock_part db stock_id skip lim)
    as (before & after & Hpart).
  split; [|split; [|split]].
  - intros p Hp.
    assert (Hin : In p (crud.order_by_date_desc
                          (filter (fun p => (Price.stock_id p =? stock_id)%Z)
                                  (Db.prices db)))).
    { rewrite Hpart. apply in_or_app. right. apply in_or_app. now left. }
    apply (Permutation_in _ (order_by_date_desc_permutation _)) in Hin.
    apply filter_In in Hin. destruct Hin as [Hin E].
    split; [exact Hin | now apply Z.eqb_eq].
  - pose proof (order_by_date_desc_sorted
                  (filter (fun p => (Price.stock_id p =? stock_id)%Z)
                          (Db.prices db))) as Hs.
    unfold newest_first in *. rewrite Hpart in Hs.
    apply strongly_sorted_app in Hs. destruct Hs as [_ Hs].
    apply strongly_sorted_app in Hs. tauto.
  - intro Hlim. unfold crud.list_prices_by_stock, crud.limit.
    rewrite (proj2 (Z.ltb_ge _ _) Hlim).
    unfold len. rewrite length_firstn. lia.
  - intros Hskip Hlim. unfold crud.list_prices_by_stock, crud.limit, crud.offset.
    rewrite (proj2 (Z.ltb_lt _ _) Hlim).
    replace (Z.to_nat skip) with 0%nat by lia. simpl skipn.
    apply order_by_date_desc_permutation.
Qed.

Lemma list_prices_by_stock_rows_witness :
  (0 <= 2)%Z /\ (len (crud.list_prices_by_stock three_prices 1 0 2) <= 2)%Z.
Proof.
  split; [lia|].
  apply (proj1 (proj2 (proj2 (list_prices_by_stock_rows three_prices 1 0 2)))).
  lia.
Defined.

(** ** From the query to the indicators *)

Lemma strongly_sorted_snoc {A : Type} (R : A -> A -> Prop) (l : list A) (a : A) :
  StronglySorted R l -> Forall (fun x => R x a) l -> StronglySorted R (l ++ [a]).
Proof.
  induction 1 as [|x l Hs IH Hall]; intro Ha; simpl.
  - repeat constructor.
  - apply Forall_cons_iff in Ha. destruct Ha as [Hxa Ha].
    constructor; [now apply IH|].
    apply Forall_app. split; [exact Hall | now constructor].
Qed.

Lemma newest_first_rev (prices : list Price.t) :
  newest_first prices ->
  StronglySorted (fun p q => (Price.date p <= Price.date q)%Z) (rev prices).
Proof.
  unfold newest_first. induction 1 as [|a l Hs IH Hall]; simpl.
  - constructor.
  - apply strongly_sorted_snoc; [exact IH|].
    apply Forall_forall. intros x Hx. apply in_rev in Hx.
    rewrite Forall_forall in Hall. now apply Hall.
Qed.

Lemma NoDup_map_filter {A B : Type} (key : A -> B) (f : A -> bool) (l : list A) :
  NoDup (map key l) -> NoDup (map key (filter f l)).
Proof.
  induction l as [|a l IH]; simpl; intro H; [constructor|].
  apply NoDup_cons_iff in H. destruct H as [Hnotin Hnd].
  destruct (f a); simpl; [|now apply IH].
  constructor; [|now apply IH].
  intro Hin. apply Hnotin. apply in_map_iff in Hin.
  destruct Hin as (x & Hx & Hin). apply filter_In in Hin.
  rewrite <- Hx. apply in_map. tauto.
Qed.

Lemma list_prices_by_stock_distinct (db : Db.t) (stock_id skip lim : Z) :
  one_price_per_date db ->
  distinct_dates (crud.list_prices_by_stock db stock_id skip lim).
Proof.
  unfold one_price_per_date, distinct_dates, dates. intro Hnd.
  destruct (list_prices_by_stock_part db stock_id skip lim)
    as (before & after & Hpart).
  set (rows := crud.list_prices_by_stock db stock_id skip lim) in *.
  set (key := fun p => (Price.stock_id p, Price.date p)) in *.
  assert (Hkeys : NoDup (map key rows)).
  { apply (NoDup_map_filter key (fun p => (Price.stock_id p =? stock_id)%Z))
      in Hnd.
    apply (Permutation_NoDup
             (Permutation_map key
                (Permutation_sym (order_by_date_desc_permutation _)))) in Hnd.
    rewrite Hpart, !map_app in Hnd.
    apply NoDup_app_remove_l in Hnd. now apply NoDup_app_remove_r in Hnd. }
  assert (Hsame : map key rows = map (fun d => (stock_id, d)) (map Price.date rows)).
  { rewrite map_map. apply map_ext_in. intros p Hp. unfold key. f_equal.
    assert (Hin : In p (crud.order_by_date_desc
                          (filter (fun p => (Price.stock_id p =? stock_id)%Z)
                                  (Db.prices db)))).
    { rewrite Hpart. apply in_or_app. right. apply in_or_app. now left. }
    apply (Permutation_in _ (order_by_date_desc_permutation _)) in Hin.
    apply filter_In in Hin. now apply Z.eqb_eq. }
  rewrite Hsame in Hkeys. now apply NoDup_map_inv in Hkeys.
Qed.

Lemma list_prices_by_stock_newest_first (db : Db.t) (stock_id skip lim : Z) :
  newest_first (crud.list_prices_by_stock db stock_id skip lim).
Proof.
  destruct (list_prices_by_stock_part db stock_id skip lim)
    as (before & after & Hpart).
  pose proof (order_by_date_desc_sorted
                (filter (fun p => (Price.stock_id p =? stock_id)%Z)
                        (Db.prices db))) as Hs.
  unfold newest_first in *. rewrite Hpart in Hs.
  apply strongly_sorted_app in Hs. destruct Hs as [_ Hs].
  apply strongly_sorted_app in Hs. tauto.
Qed.

(** X26: the sort of the endpoints undoes the order of the query.  In a
    store with at most one price per stock and date, sorting by date what
    [crud.list_prices_by_stock] returns gives exactly its reversal: the
    indicators are computed on the fetched rows, oldest first. *)
Theorem sorted_query_is_reversed (db : Db.t) (stock_id skip lim : Z) :
  one_price_per_date db ->
  sorted_by_date (crud.list_prices_by_stock db stock_id skip lim) =
  rev (crud.list_prices_by_stock db stock_id skip lim).
Proof.
  intro Hinv.
  pose proof (list_prices_by_stock_distinct db stock_id skip lim Hinv) as Hnd.
  pose proof (list_prices_by_stock_newest_first db stock_id skip lim) as Hs.
  set (rows := crud.list_prices_by_stock db stock_id skip lim) in *.
  apply sorted_unique.
  - apply oldest_first_strong, sorted_by_date_sorted.
  - now apply newest_first_rev.
  - rewrite sorted_by_date_permutation. apply Permutation_rev.
  - unfold distinct_dates, dates in *.
    apply (Permutation_NoDup (l := map Price.date rows)); [|exact Hnd].
    apply Permutation_map, Permutation_sym, sorted_by_date_permutation.
Qed.

Lemma sorted_query_is_reversed_witness :
  sorted_by_date (crud.list_prices_by_stock three_prices 1 0 60) =
  rev (crud.list_prices_by_stock three_prices 1 0 60).
Proof.
  apply sorted_query_is_reversed.
  unfold one_price_per_date. vm_compute.
  repeat (apply NoDup_cons;
          [intro Hin; simpl in Hin; intuition discriminate|]);
    apply NoDup_nil.
Defined.

(** A price newer than every row comes first in the descending order,
    wherever it stands in the table. *)
Lemma order_by_date_desc_newest (rows : list Price.t) (p : Price.t) :
  (forall q, In q rows -> (Price.date q < Price.date p)%Z) ->
  fold_right crud.insert_desc [p] rows = p :: crud.order_by_date_desc rows.
Proof.
  induction rows as [|q rows IH]; intros Hnew; [reflexivity|].
  simpl. rewrite IH by (intros q' Hq'; apply Hnew; now right).
  simpl. pose proof (Hnew q (or_introl eq_refl)) as Hq.
  destruct (Z.leb_spec (Price.date p) (Price.date q)) as [Hle|_]; [lia|].
  reflexivity.
Qed.

Lemma limit_head {A : Type} (lim : Z) (row : A) (rows : list A) :
  lim <> 0%Z ->
  exists rest, crud.limit lim (row :: rows) = row :: rest /\
               forall x, In x rest -> In x rows.
Proof.
  intros Hlim. unfold crud.limit.
  destruct (Z.ltb_spec lim 0) as [_|Hge]; [now exists rows|].
  destruct (Z.to_nat lim) as [|n] eqn:En; [lia|].
  exists (firstn n rows). split; [reflexivity|].
  intros x Hx. rewrite <- (firstn_skipn n rows). apply in_or_app. now left.
Qed.

(** X27: a stored price is what the indicators report.  When
    [crud.create_price] returns a price whose date is later than every
    date the stock already has, [get_indicators] on the new store with
    any [days] other than 0 returns, and its latest_date and latest_close
    are the date and the close of the request. *)
Theorem create_price_then_get_indicators (db db' : Db.t) (new_id days : Z)
    (price_in : PriceCreate.t) (price : Price.t) :
  crud.create_price db new_id price_in = (crud.Return price, db') ->
  (forall q, In q (Db.prices db) ->
             Price.stock_id q = PriceCreate.stock_id price_in ->
             (Price.date q < PriceCreate.date price_in)%Z) ->
  days <> 0%Z ->
  exists r,
    get_indicators_from db' (PriceCreate.stock_id price_in) days = Ok r /\
    IndicatorSummary.latest_date r = Some (PriceCreate.date price_in) /\
    IndicatorSummary.latest_close r = Some (PriceCreate.close price_in).
Proof.
  intros Hcreate Hnew Hdays.
  unfold crud.create_price in Hcreate.
  destruct (crud.first (filter (fun s => (Stock.id s =? PriceCreate.stock_id price_in)%Z)
                               (Db.stocks db))) as [stock|] eqn:Hstock;
    [|discriminate].
  destruct (crud.first (filter _ (Db.prices db))) as [?|]; [discriminate|].
  injection Hcreate as Hprice Hdb. subst db'. rewrite Hprice.
  set (sid := PriceCreate.stock_id price_in) in *.
  set (old := filter (fun p => (Price.stock_id p =? sid)%Z) (Db.prices db)).
  assert (Hsid : Price.stock_id price = sid) by (subst price; reflexivity).
  assert (Hdate : Price.date price = PriceCreate.date price_in)
    by (subst price; reflexivity).
  assert (Hclose : Price.close price = PriceCreate.close price_in)
    by (subst price; reflexivity).
  clear Hprice.
  assert (Hold : forall q, In q old -> (Price.date q < Price.date price)%Z).
  { intros q Hq. apply filter_In in Hq as [Hq Hs].
    rewrite Hdate. apply Hnew; [exact Hq|]. now apply Z.eqb_eq. }
  assert (Hrows : exists rest,
             crud.list_prices_by_stock
               {| Db.stocks := Db.stocks db; Db.prices := Db.prices db ++ [price] |}
               sid 0 days = price :: rest /\
             forall q, In q rest -> In q old).
  { unfold crud.list_prices_by_stock, crud.offset. simpl.
    rewrite filter_app. simpl. rewrite Hsid, Z.eqb_refl.
    fold old. unfold crud.order_by_date_desc. rewrite fold_right_app. simpl.
    rewrite (order_by_date_desc_newest old price Hold).
    destruct (limit_head days price (crud.order_by_date_desc old) Hdays)
      as [rest [Hrest Hsub]].
    exists rest. split; [exact Hrest|].
    intros q Hq.
    apply (Permutation_in q (order_by_date_desc_permutation old)).
    now apply Hsub. }
  destruct Hrows as [rest [Hrows Hrest]].
  unfold get_indicators_from. fold sid. rewrite Hrows.
  assert (Hget : crud.get_stock
                   {| Db.stocks := Db.stocks db; Db.prices := Db.prices db ++ [price] |}
                   sid = Some stock) by exact Hstock.
  rewrite Hget.
  destruct (get_indicators_run stock (price :: rest) sid ltac:(discriminate))
    as (latest & ma_5 & ma_20 & rsi_14 & momentum_3d & Hlatest & _ & _ & _ & _ & Hrun).
  rewrite Hrun. eexists. split; [reflexivity|]. simpl.
  destruct (latest_of_series _ _ Hlatest) as [Hin Hmax].
  assert (Heq : latest = price).
  { destruct Hin as [Heq|Hin]; [now symmetry|].
    pose proof (Hold latest (Hrest latest Hin)) as Hlt.
    pose proof (Hmax price (or_introl eq_refl)) as Hle. lia. }
  subst latest. rewrite Hdate, Hclose. split; reflexivity.
Qed.
